(* ===== verification/_CoqProject ===== *)
-Q . S2P
Prelude.v
Stdio.v
Reporter.v
Fasta.v
Engine.v
EngineInv.v
EngineCorrect.v
Behaviour.v
Main.v
