(* ===== verification/Prelude.v ===== *)
(** * flfasta: a verification development of the length filter for
      single-line FASTA files

    The program (src/main.c, 202 lines of C) has two parts.

    - [read_write_entries] (src/main.c:49-121), the scanner/filter engine.
      It reads the input file one byte at a time through [fread] and drives
      a three-state machine ([STATE_NONE], [STATE_HEADER],
      [STATE_SEQUENCE], src/main.c:44-46).  When a sequence line ends it
      classifies the record by the length of that line against the
      minimum and maximum of the run, and for a record it keeps it seeks
      the input back to the record's ['>'] and copies the bytes, with
      [fputc (fgetc ...)], up to the end of the sequence line.  The copy
      leaves the cursor where the forward scan had left it.  The engine
      also counts lines, prints progress and prints three totals.
    - [main] (src/main.c:144-202) with [print_help] (src/main.c:123-142).
      [main] parses the five arguments with [strncat] and [atoi] into the
      [struct context] (src/main.c:33-42), opens the two files, runs the
      engine and maps the outcome to the exit status.

    The two parts meet in the [struct context]: [main] fills it and the
    engine reads the two [FILE *] handles, the two bounds and the
    progress flag from it.

    ** Files, in the order of _CoqProject

    - [Prelude] (this file): bytes, the delimiters ['>'] and ['\n'], the
      window [window a b l] of a byte list, the C integer conversions
      ([to_u32], [to_u8]) and the shared lemmas, tactics and the hint
      databases [fasta] and [fasta_rw].
    - [Stdio]: the part of C's stdio the engine uses.  The class
      [SeekableFile] is the interface the engine is proved against: a
      readable, seekable file given by its contents and its cursor.
      [MemFile] is the instance the witnesses run on.  The module also has
      [fread] (one byte), [fgetc] (an [int], [EOF] = -1), [fputc] (writes
      [(unsigned char) c]), [ftell], [fseek] with [SEEK_SET] and
      [SEEK_END], and the lines the program prints to stdout, as the
      inductive [line].
    - [Reporter]: the text of every line the program prints.  The
      progress percentage of line 110 is computed in IEEE binary64 with
      the Standard Library's [SpecFloat] ([double_of_u64],
      [progress_percentage]), and [%0.2f] prints its exact binary value
      rounded to two decimals ([format_f2]).  [%u]/[%lu] print decimal
      digits ([format_u]), and [render] gives the characters of stdout.
    - [Fasta]: the abstract specification.  It has the records
      ([record]), their printed form [print_record], and the grammar
      [Fasta] of an input as a sequence of records and a tail that is
      never finalised.  [pscan] is a reference scanner that buffers each
      record, the pure transition function of the spec's design notes.
      [records] parses a whole input, [keep] is the length filter and
      [filter_fasta] is the output the engine must produce.
    - [Engine]: [read_write_entries], translated statement by statement.
      Its locals are the record [locals], and the files and stdout are the
      record [io].  The body of the [while] loop is [loop_iteration]
      (with [dispatch] for the [if]/[else if] chain on [state] and
      [report_progress] for the progress [if]), the inner copy loop is
      [copy_loop], and the outer loop is [main_loop].  The engine is also
      given as a step relation [step] with [reachable] states.
    - [EngineInv]: the invariant [inv] that ties an engine state to the
      reference scanner on the bytes consumed so far.  It shows that every
      iteration preserves it, a simulation of [pscan] by the engine, and
      draws the consequences for reachable states.
    - [EngineCorrect]: termination of [read_write_entries] for every input,
      refinement of the specification [filter_fasta] with the three
      counters, the progress lines, and the bounds of the [uint64_t]
      locals.
    - [Behaviour]: the engine's behaviour as the spec states it, derived
      from the refinement theorem.  It has the classification rule
      ([classify], lines 93-97), idempotence of the filter and the dropped
      unterminated last record.
    - [Main]: [main] (src/main.c:144-202) as a function of a [host]: the
      result of [malloc], a file store (a [gmap] from path to bytes) and
      the paths that cannot be opened for writing.  [fopen(path, "w")]
      truncates the stored file, so the input and the output are the same
      file when their paths are equal.  It covers the argument check, [strncat]
      into the [PATH_LENGTH_MAX] buffers, [atoi] and the
      [uint32_t]/[uint8_t] fields ([parse_arguments]), the four settings
      lines, the two open failures, the engine call and [exit_status].
      It also has [print_help] (src/main.c:123-142) as the thirteen lines
      it prints, the version line formatted from the
      [APPLICATION_VERSION_*] macros as [%04u.%02u.%02u.%u].

    ** Theorems, by group

    - Copy-back (Engine): [copy_loop] writes exactly the window
      [header_position, target) and leaves the cursor at [target].  It
      terminates iff [target] is within the file, and otherwise it never
      terminates, at any fuel.
    - Specification (Fasta): [records] satisfies the grammar, the grammar
      is deterministic, printing then parsing is the identity, the length
      filter is inclusive at both bounds and [maximum = 0] never discards
      from above.  An unterminated last record is dropped, and filtering
      is idempotent.
    - Engine invariant (EngineInv): every iteration preserves [inv] and
      advances the cursor by exactly one byte.  The copy-back is therefore
      invisible to the scan.  In every reachable state the three counters
      add up to the number of finalised records, [header_position] points
      at a ['>'], and [current_line] is one more than the newlines read.
    - End-to-end (EngineCorrect): for every input and configuration
      [read_write_entries] returns.  The output file is then
      [filter_fasta], the counters count the records by verdict, the
      progress lines are the positions [p] with [p mod 100 = 0] or
      [p >= size], and every [uint64_t] local stays below the file size.
    - Behaviour: the classification is the spec's rule, inclusive at
      both bounds, with [maximum = 0] meaning no maximum.  Filtering the
      output again changes nothing, and an unterminated last record is
      dropped.
    - Main: [main] always returns.  It fails exactly when [malloc] or an
      [fopen] fails, prints the help text for a wrong argument count, and
      otherwise writes [filter_fasta] of the input with the bounds [atoi]
      read.  It never changes a file but the output, and a failed run
      changes none.  With the same path for input and output it empties
      the file and reports 0 records.  Paths are cut at 4095 bytes.  A
      negative maximum [-n] is stored as [2^32 - n], a bound and not "no
      maximum", and the progress flag is on exactly when [atoi] reads a
      value congruent to 1 modulo 256.
    - Reporter: the last progress line of a file of fewer than 2^53 bytes
      reads "100.00%" (the binary64 division of a size by itself is exact),
      and a run's printed text ends with it and the three totals.

    ** Bounds and fuel

    The loops are [Fixpoint]s on fuel, and [None] stands for a loop that
    does not terminate.  [read_write_entries] runs [main_loop] with fuel
    [S file_size].  Every iteration consumes one byte, so [file_size]
    iterations and the final failed [fread] use all of it.  [dispatch]
    runs [copy_loop] with fuel [S target].  The copy advances one byte per
    iteration from [header_position] to [target], so this is enough
    whenever the loop terminates at all.  The theorems show both fuels are
    enough.  Positions and counters are [nat]: every [uint64_t] local is
    bounded by the file size (EngineCorrect), so C's wrap-around at 2^64
    never fires for a file of fewer than 2^64 bytes.

    ** Not modelled

    - The failure of [fread], [fputc], [fseek] or [ftell] on a file that
      is open: the code never checks for it.
    - [malloc]'s failure beyond a flag, and [atoi] outside the range of
      [int], which is undefined behaviour.
    - [fclose], [free] and [fflush]: they change no state the theorems
      observe.
    - A bound on the percentage printed before the end of the file.  The
      model computes it, but a bound would need the monotonicity of
      binary64 rounding, which [SpecFloat] does not provide.
    - Two path strings naming one file (a link, "./a" and "a"): they are
      different keys of the store.
    The C library itself is not code of this repository.  What the program
    relies on is stated as the laws of [SeekableFile] and the file store
    of [host]. *)

From Stdlib Require Export Strings.Byte ZArith.
From stdpp Require Export base list decidable relations.

Declare Scope fasta_scope.
Delimit Scope fasta_scope with fasta.
Open Scope fasta_scope.

(** Bytes, as [uint8_t] values.  Decidable equality for stdpp's [decide]. *)
#[export] Instance byte_eq_decision : EqDecision byte := byte_eq_dec.

(** The two delimiters the program knows: ['\n'] and ['>']. *)
Definition NL : byte := "010"%byte.
Definition GT : byte := ">"%byte.

(** The bytes of [l] at positions [a] (included) to [b] (excluded). *)
Definition window {A} (a b : nat) (l : list A) : list A := drop a (take b l).

Notation "l .[ a , b )" := (window a b l)
  (at level 1, a at level 200, b at level 200, format "l .[ a ,  b )")
  : fasta_scope.

(** The number of occurrences of a byte in a list. *)
Definition count_byte (c : byte) (l : list byte) : nat :=
  length (filter (fun b => b = c) l).

(** C's conversion of an [int] to [uint32_t] and to [uint8_t]: reduction
    modulo 2^32 and 2^8 (C11 6.3.1.3). *)
Definition to_u32 (z : Z) : nat := Z.to_nat (z mod 2 ^ 32).
Definition to_u8 (z : Z) : nat := Z.to_nat (z mod 2 ^ 8).

Create HintDb fasta.
Create Rewrite HintDb fasta_rw.

(** ** Windows *)

Lemma NL_neq_GT : NL <> GT.
Proof. discriminate. Qed.

Lemma window_nil {A} n (l : list A) : l.[n, n) = [].
Proof. unfold window. apply drop_ge. rewrite length_take. lia. Qed.

Lemma window_snoc {A} a n (l : list A) x :
  a <= n -> l !! n = Some x -> l.[a, S n) = l.[a, n) ++ [x].
Proof.
  intros Ha Hx. unfold window. rewrite (take_S_r _ _ _ Hx), drop_app_le; [done|].
  rewrite length_take. apply lookup_lt_Some in Hx. lia.
Qed.

Lemma window_split {A} a m n (l : list A) :
  a <= m -> m <= n -> l.[a, n) = l.[a, m) ++ l.[m, n).
Proof.
  intros Ham Hmn. unfold window.
  rewrite <- (take_drop m (take n l)) at 1.
  rewrite take_take, Nat.min_l by lia.
  destruct (decide (a <= length l)).
  - rewrite drop_app_le; [done|]. rewrite length_take. lia.
  - rewrite (drop_ge (take m l)), (drop_ge (_ ++ _)), (drop_ge (take n l));
      rewrite ?length_app, ?length_drop, ?length_take; simpl; [done|lia..].
Qed.

Lemma length_window {A} a n (l : list A) :
  a <= n -> n <= length l -> length (l.[a, n)) = n - a.
Proof. intros. unfold window. rewrite length_drop, length_take. lia. Qed.

(** ** Counting bytes *)

Lemma count_byte_app c l1 l2 :
  count_byte c (l1 ++ l2) = count_byte c l1 + count_byte c l2.
Proof. unfold count_byte. by rewrite list.filter_app, length_app. Qed.

Lemma count_byte_one c b :
  count_byte c [b] = if decide (b = c) then 1 else 0.
Proof. unfold count_byte. cbn. by destruct (decide (b = c)). Qed.

#[export] Hint Rewrite @window_nil count_byte_app count_byte_one : fasta_rw.

(** Normalise concatenations to the right: [(a ++ b) ++ c] and
    [(x :: a) ++ b] become [a ++ (b ++ c)] and [x :: (a ++ b)]. *)
Ltac app_norm := repeat progress (rewrite <- ?app_assoc; cbn [app]).

Lemma Forall_filter_sub {A} (P Q : A -> Prop) `{forall x, Decision (P x)} l :
  Forall Q l -> Forall Q (filter P l).
Proof.
  induction 1 as [|x l Hx _ IH]; [constructor|].
  rewrite filter_cons. case_decide; [by constructor|done].
Qed.

Lemma window_cons {A} a n (l : list A) x :
  l !! a = Some x -> a < n -> l.[a, n) = x :: l.[S a, n).
Proof.
  intros Hx Ha. unfold window. apply drop_S. by rewrite lookup_take_lt.
Qed.

Lemma window_head {A} a b (l : list A) x r : l.[a, b) = x :: r -> l !! a = Some x.
Proof.
  unfold window. intros E. assert (Hx : drop a (take b l) !! 0 = Some x) by by rewrite E.
  rewrite lookup_drop, Nat.add_0_r in Hx. by apply lookup_take_Some in Hx as [? _].
Qed.

Lemma filter_none {A} (P : A -> Prop) `{forall x, Decision (P x)} (l : list A) :
  (forall x, x ∈ l -> ~ P x) -> filter P l = [].
Proof.
  induction l as [|x l IH]; intros Hn; [done|]. rewrite filter_cons_False.
  - apply IH. intros y Hy. apply Hn. by right.
  - apply Hn. left.
Qed.
