(* ===== verification/Stdio.v ===== *)
(** * Stdio: the part of C's stdio that flfasta uses

    The engine sees its input through [fread], [fgetc], [ftell] and
    [fseek].  What it relies on is stated as the class [SeekableFile]: a
    file has fixed contents and a cursor, reading a byte returns the
    byte under the cursor and advances the cursor by one, reading at the
    end returns nothing and leaves the cursor, and seeking sets the cursor.
    The engine's theorems are proved against these laws.  [MemFile]
    discharges them and is the file the witnesses run on.

    The output [FILE *] is only ever appended to by [fputc]: it is the
    list of bytes written so far.  Standard output is the list of [line]s
    printed, with the format strings abstracted away. *)

From S2P Require Import Prelude.
From Stdlib Require String.

(** ** The input file: an interface with its laws *)

Class SeekableFile (F : Type) := {
  contents : F -> list byte;
  cursor : F -> nat;
  seek_to : F -> nat -> F;
  read_byte : F -> option byte * F;
  seek_to_cursor f p : cursor (seek_to f p) = p;
  seek_to_contents f p : contents (seek_to f p) = contents f;
  read_byte_result f : fst (read_byte f) = contents f !! cursor f;
  read_byte_cursor f :
    cursor (snd (read_byte f)) =
      match fst (read_byte f) with Some _ => S (cursor f) | None => cursor f end;
  read_byte_contents f : contents (snd (read_byte f)) = contents f
}.

(** ** The C calls, on any [SeekableFile] *)

Section Calls.
Context {F : Type} `{SeekableFile F}.

(** [fread(&byte, 1, 1, file) == 1]: [Some byte] when one byte was read. *)
Definition fread (f : F) : option byte * F := read_byte f.

(** [EOF] and [fgetc], which returns an [int]: the byte as [unsigned char]
    or [EOF]. *)
Definition EOF : Z := (-1)%Z.

Definition int_of_byte (b : byte) : Z := Z.of_N (Byte.to_N b).

Definition fgetc (f : F) : Z * F :=
  match read_byte f with
  | (Some b, f') => (int_of_byte b, f')
  | (None, f') => (EOF, f')
  end.

Definition ftell (f : F) : nat := cursor f.

Inductive whence := SEEK_SET | SEEK_END.

Definition fseek (f : F) (offset : nat) (w : whence) : F :=
  match w with
  | SEEK_SET => seek_to f offset
  | SEEK_END => seek_to f (length (contents f) + offset)
  end.

End Calls.

(** [fputc(c, out)] writes [(unsigned char) c], that is [c mod 256]. *)
Definition byte_of_int (c : Z) : byte :=
  match Byte.of_N (Z.to_N (c mod 256)) with Some b => b | None => x00 end.

Definition fputc (c : Z) (out : list byte) : list byte := out ++ [byte_of_int c].

(** ** Standard output *)

(** The lines the program prints, by the [printf]/[puts] that prints them. *)
Inductive line :=
  | LProgress (position size : nat)   (* "\rFiltering by length at %0.2f%%." *)
  | LNewline                          (* the "\n" after the progress lines *)
  | LKept (n : nat)                   (* "Total of sequences kept: %lu." *)
  | LBelow (n : nat)                  (* "... discarded bellow minimum: %lu." *)
  | LAbove (n : nat)                  (* "... discarded above maximum: %lu." *)
  | LText (text : String.string)      (* a fixed line, from puts or printf *)
  | LInput (path : String.string)     (* "  Input: \"%s\"" *)
  | LOutput (path : String.string)    (* "  Output: \"%s\"" *)
  | LMinimum (n : nat)                (* "  Sequence minimum length: %u" *)
  | LMaximum (n : nat)                (* "  Sequence maximum length: %u" *)
  | LOpenInputFailed                  (* "Failed to open the input file ..." *)
  | LOpenOutputFailed.                (* "Failed to open the output file ..." *)

(** ** An in-memory file *)

Record mem_file := MemFile { mf_bytes : list byte; mf_pos : nat }.

Definition mf_read (f : mem_file) : option byte * mem_file :=
  match mf_bytes f !! mf_pos f with
  | Some b => (Some b, MemFile (mf_bytes f) (S (mf_pos f)))
  | None => (None, f)
  end.

#[export, refine] Instance MemFile_seekable : SeekableFile mem_file := {
  contents := mf_bytes;
  cursor := mf_pos;
  seek_to f p := MemFile (mf_bytes f) p;
  read_byte := mf_read
}.
Proof.
  all: try reflexivity.
  all: intros [l p]; unfold mf_read; simpl; by destruct (l !! p).
Defined.

(** ** The laws, as the rewriting lemmas the engine's proofs use *)

Section Laws.
Context {F : Type} `{SeekableFile F}.

Lemma fread_some (f : F) b :
  contents f !! cursor f = Some b ->
  fst (fread f) = Some b /\ cursor (snd (fread f)) = S (cursor f) /\
  contents (snd (fread f)) = contents f.
Proof.
  unfold fread. intros Hb. rewrite read_byte_cursor, read_byte_contents,
    read_byte_result, Hb. auto.
Qed.

Lemma fread_none (f : F) :
  contents f !! cursor f = None -> fst (fread f) = None.
Proof. unfold fread. by rewrite read_byte_result. Qed.

Lemma fread_inv (f f' : F) rb :
  fread f = (rb, f') ->
  contents f !! cursor f = rb /\ contents f' = contents f /\
  cursor f' = match rb with Some _ => S (cursor f) | None => cursor f end.
Proof.
  unfold fread. intros E. pose proof (read_byte_result f) as R.
  pose proof (read_byte_cursor f) as C. pose proof (read_byte_contents f) as D.
  rewrite E in R, C, D. simpl in *. auto.
Qed.

Lemma fgetc_some (f : F) b :
  contents f !! cursor f = Some b ->
  fst (fgetc f) = int_of_byte b /\ cursor (snd (fgetc f)) = S (cursor f) /\
  contents (snd (fgetc f)) = contents f.
Proof.
  unfold fgetc. intros Hb. pose proof (read_byte_result f) as R.
  pose proof (read_byte_cursor f) as C. pose proof (read_byte_contents f) as D.
  destruct (read_byte f) as [[b'|] f']; simpl in *; rewrite Hb in R; by simplify_eq.
Qed.

Lemma fgetc_none (f : F) :
  contents f !! cursor f = None ->
  fst (fgetc f) = EOF /\ cursor (snd (fgetc f)) = cursor f /\
  contents (snd (fgetc f)) = contents f.
Proof.
  unfold fgetc. intros Hb. pose proof (read_byte_result f) as R.
  pose proof (read_byte_cursor f) as C. pose proof (read_byte_contents f) as D.
  destruct (read_byte f) as [[b'|] f']; simpl in *; rewrite Hb in R; by simplify_eq.
Qed.

Lemma fseek_set_cursor (f : F) p : cursor (fseek f p SEEK_SET) = p.
Proof. apply seek_to_cursor. Qed.

Lemma fseek_contents (f : F) p w : contents (fseek f p w) = contents f.
Proof. destruct w; apply seek_to_contents. Qed.

End Laws.

(** [fputc (fgetc f)] copies the byte: [(unsigned char)] undoes the
    promotion of the byte to [int]. *)
Lemma byte_of_int_of_byte b : byte_of_int (int_of_byte b) = b.
Proof. destruct b; reflexivity. Qed.

#[export] Hint Rewrite @seek_to_cursor @seek_to_contents @fseek_set_cursor
  @fseek_contents byte_of_int_of_byte : fasta_rw.
