(* ===== verification/Reporter.v ===== *)
(** * Reporter: the text the program prints (src/main.c:108-120, 125-184)

    [Stdio.line] records which [printf]/[puts] ran and with which
    arguments.  This file renders each line to the characters C prints.
    - [%u] and [%lu] of an unsigned integer are its decimal digits
      ([format_u]), and [%04u]/[%02u] pad them with zeros ([format_0u]).
    - The progress percentage of line 110,
      [((double)file_position / (double)file_size) * 100.0], is computed
      in IEEE-754 binary64 with the Standard Library's [SpecFloat] (the
      rounding of Flocq, with no axioms).  [(double)] of a [uint64_t] is
      [binary_normalize], the division and the product are [SFdiv] and
      [SFmul], all rounding to nearest, ties to even, as C does by default.
    - [%0.2f] prints the exact binary value rounded to two decimals, to
      nearest with ties to even ([format_f2]), as glibc's [printf] does.
    [render] concatenates the rendered lines: the bytes of stdout. *)

From S2P Require Import Prelude Stdio.
From Stdlib Require String Ascii DecimalString DecimalNat DecimalN.
From Stdlib Require Import Floats.SpecFloat.
Import (notations) String Ascii.

(** ** Decimal formatting *)

(** [%u] and [%lu]: the decimal digits of an unsigned value. *)
Definition format_u (n : nat) : String.string :=
  DecimalString.NilZero.string_of_uint (Nat.to_uint n).

(** [%0<w>u]: the digits, padded with zeros on the left to [w] characters. *)
Definition format_0u (w n : nat) : String.string :=
  let s := format_u n in
  String.append (String.concat "" (repeat "0"%string (w - String.length s))) s.

(** The digits of a large non-negative [Z], without going through unary
    [nat]. *)
Definition format_Z (z : Z) : String.string :=
  DecimalString.NilZero.string_of_uint (N.to_uint (Z.to_N z)).

(** ** binary64 *)

Definition prec : Z := 53%Z.
Definition emax : Z := 1024%Z.

(** [(double)n] for a [uint64_t] [n]. *)
Definition double_of_u64 (n : nat) : spec_float :=
  binary_normalize prec emax (Z.of_nat n) 0%Z false.

(** Line 110: [((double)file_position / (double)file_size) * 100.0]. *)
Definition progress_percentage (position size : nat) : spec_float :=
  SFmul prec emax (SFdiv prec emax (double_of_u64 position) (double_of_u64 size))
    (double_of_u64 100).

(** [n / d] rounded to nearest, ties to even, for [n >= 0] and [d > 0]. *)
Definition round_div (n d : Z) : Z :=
  let q := (n / d)%Z in
  match Z.compare (2 * (n mod d))%Z d with
  | Lt => q
  | Gt => q + 1
  | Eq => if Z.even q then q else q + 1
  end%Z.

(** The value [m * 2^e], times 100, rounded to an integer. *)
Definition hundredths (m : positive) (e : Z) : Z :=
  (if Z.leb 0 e then Z.pos m * 2 ^ e * 100 else round_div (Z.pos m * 100) (2 ^ (- e)))%Z.

Definition format_fixed2 (negative : bool) (h : Z) : String.string :=
  String.append (if negative then "-" else "")
    (String.append (format_Z (h / 100)%Z)
       (String.append "." (format_0u 2 (Z.to_nat (h mod 100)%Z)))).

(** [%0.2f] as glibc prints it. *)
Definition format_f2 (x : spec_float) : String.string :=
  match x with
  | S754_zero s => format_fixed2 s 0
  | S754_infinity s => if s then "-inf" else "inf"
  | S754_nan => "nan"
  | S754_finite s m e => format_fixed2 s (hundredths m e)
  end.

(** ** Rendering the lines *)

Definition CR : String.string := String.String "013"%char String.EmptyString.
Definition LF : String.string := String.String "010"%char String.EmptyString.
Definition DQ : String.string := String.String "034"%char String.EmptyString.

(** The lines [read_write_entries] prints, lines 108-120. *)
Definition render_engine_line (l : line) : String.string :=
  match l with
  | LProgress p s =>
      String.concat "" [CR; "Filtering by length at "; format_f2 (progress_percentage p s); "%."]
  | LNewline => LF
  | LKept n => String.concat "" ["Total of sequences kept: "; format_u n; "."; LF]
  | LBelow n =>
      String.concat "" ["Total of sequences discarded bellow minimum: "; format_u n; "."; LF]
  | LAbove n =>
      String.concat "" ["Total of sequences discarded above maximum: "; format_u n; "."; LF]
  | _ => ""
  end%string.

(** The lines [main] and [print_help] print, lines 125-141 and 166-184:
    [puts] appends a newline, and so do the [printf] formats. *)
Definition render_main_line (l : line) : String.string :=
  match l with
  | LText t => String.append t LF
  | LInput p => String.concat "" ["  Input: "; DQ; p; DQ; LF]
  | LOutput p => String.concat "" ["  Output: "; DQ; p; DQ; LF]
  | LMinimum n => String.concat "" ["  Sequence minimum length: "; format_u n; LF]
  | LMaximum n => String.concat "" ["  Sequence maximum length: "; format_u n; LF]
  | LOpenInputFailed => String.append "Failed to open the input file for reading." LF
  | LOpenOutputFailed => String.append "Failed to open the output file for writing." LF
  | _ => ""
  end%string.

Definition render_line (l : line) : String.string :=
  match l with
  | LProgress _ _ | LNewline | LKept _ | LBelow _ | LAbove _ => render_engine_line l
  | _ => render_main_line l
  end.

(** The characters of stdout. *)
Definition render (ls : list line) : String.string :=
  fold_right (fun l acc => String.append (render_line l) acc) String.EmptyString ls.

(** ** Rendering lemmas *)

Lemma append_assoc (a b c : String.string) :
  String.append (String.append a b) c = String.append a (String.append b c).
Proof. induction a as [|x a IH]; simpl; congruence. Qed.

Lemma append_empty_r (a : String.string) : String.append a String.EmptyString = a.
Proof. induction a as [|x a IH]; simpl; congruence. Qed.

Lemma render_app l1 l2 : render (l1 ++ l2) = String.append (render l1) (render l2).
Proof.
  induction l1 as [|x l1 IH]; [done|]. simpl. by rewrite IH, append_assoc.
Qed.

(** ** binary64 lemmas *)

Lemma digits2_pos_size p : digits2_pos p = Pos.size p.
Proof. induction p; simpl; congruence. Qed.

Lemma digits2_pos_shift p k : digits2_pos (Pos.iter xO p k) = (digits2_pos p + k)%positive.
Proof.
  induction k as [|k IH] using Pos.peano_ind; [by rewrite Pos.add_1_r|].
  rewrite Pos.iter_succ. simpl. rewrite IH. lia.
Qed.

(** Rounding a canonical mantissa in range is exact. *)
Lemma round_aux_exact m e :
  fexp prec emax (Z.pos (digits2_pos m) + e) = e -> (e <= emax - prec)%Z ->
  binary_round_aux prec emax false (Z.pos m) e loc_Exact = S754_finite false m e.
Proof.
  intros Hc Hb. unfold binary_round_aux, shr_fexp. cbn [Zdigits2].
  rewrite Hc, Z.sub_diag. cbn -[fexp]. rewrite Hc, Z.sub_diag. cbn -[fexp Z.leb].
  by rewrite (proj2 (Z.leb_le _ _) Hb).
Qed.

Lemma size_bound p : (Z.pos p < 2 ^ 53)%Z -> (Z.pos (Pos.size p) <= 53)%Z.
Proof.
  intros Hp. pose proof (Pos.size_le p) as Hs. apply Pos2Z.pos_le_pos in Hs.
  rewrite Pos2Z.inj_pow in Hs. change (Z.pos p~0) with (2 * Z.pos p)%Z in Hs.
  destruct (Z.le_gt_cases (Z.pos (Pos.size p)) 53) as [|Hgt]; [done|].
  assert (2 ^ 54 <= 2 ^ Z.pos (Pos.size p))%Z by (apply Z.pow_le_mono_r; lia).
  assert (2 ^ 54 = 2 * 2 ^ 53)%Z by reflexivity. lia.
Qed.

(** [(double)n] of a [uint64_t] below 2^53 is a positive finite double. *)
Lemma double_of_u64_finite n :
  0 < n -> (Z.of_nat n < 2 ^ 53)%Z -> exists m e, double_of_u64 n = S754_finite false m e.
Proof.
  intros Hn Hlt. unfold double_of_u64, binary_normalize.
  destruct (Z.of_nat n) as [|p|p] eqn:E; [lia| |lia].
  pose proof (size_bound p Hlt) as Hs.
  unfold binary_round, shl_align. rewrite digits2_pos_size, Z.add_0_r.
  assert (Hf : forall d, (1 <= d <= 53)%Z -> fexp prec emax d = (d - prec)%Z)
    by (intros; unfold fexp, emin, prec, emax; lia).
  rewrite Hf by lia.
  destruct (Z.pos (Pos.size p) - prec - 0)%Z as [|k|k] eqn:Ek.
  - exists p, 0%Z. apply round_aux_exact; [|done].
    rewrite digits2_pos_size, Hf by lia. unfold prec in *. lia.
  - unfold prec in Ek. lia.
  - exists (Pos.iter xO p k), (Z.pos (Pos.size p) - prec)%Z. apply round_aux_exact.
    + rewrite digits2_pos_shift, digits2_pos_size, Hf; unfold prec in *; lia.
    + unfold prec, emax. lia.
Qed.

Lemma div_eucl_split a b : Z.div_eucl a b = (a / b, a mod b)%Z.
Proof. unfold Z.div, Z.modulo. by destruct (Z.div_eucl a b). Qed.

(** A positive finite double divided by itself is exactly 1.0. *)
Lemma SFdiv_self m e :
  SFdiv prec emax (S754_finite false m e) (S754_finite false m e) =
    S754_finite false (2 ^ 52) (-52).
Proof.
  unfold SFdiv, SFdiv_core_binary. rewrite !Z.sub_diag.
  replace (Z.min (fexp prec emax 0) 0) with (-53)%Z by reflexivity.
  replace (Z.sub 0 (-53)) with 53%Z by reflexivity.
  cbv beta iota zeta.
  rewrite Z.shiftl_mul_pow2, div_eucl_split by lia.
  rewrite Z.mul_comm, Z.div_mul, Z.mod_mul by lia.
  unfold new_location. destruct (Z.even (Z.pos m)); reflexivity.
Qed.

(** The progress line at the end of a file of [s] bytes, [0 < s < 2^53]. *)
Lemma progress_at_end_text s :
  0 < s -> (Z.of_nat s < 2 ^ 53)%Z ->
  render_line (LProgress s s) = String.append CR "Filtering by length at 100.00%.".
Proof.
  intros Hs Hlt. destruct (double_of_u64_finite s Hs Hlt) as (m & e & E).
  cbn [render_line render_engine_line]. unfold progress_percentage.
  rewrite E, SFdiv_self. vm_compute. reflexivity.
Qed.

(** C22. The progress line printed when the cursor reaches the end of a
    file of [s] bytes, [0 < s < 2^53], reads exactly
    "\rFiltering by length at 100.00%.": the division of
    [(double)s] by itself is exact, whatever [s]. *)
Theorem render_progress_at_end s :
  0 < s -> (Z.of_nat s < 2 ^ 53)%Z ->
  render_line (LProgress s s) = String.append CR "Filtering by length at 100.00%.".
Proof. apply progress_at_end_text. Qed.

Lemma render_progress_at_end_witness :
  0 < 5 /\ (Z.of_nat 5 < 2 ^ 53)%Z /\
  render_line (LProgress 5 5) = String.append CR "Filtering by length at 100.00%.".
Proof.
  assert (H1 : 0 < 5) by lia. assert (H2 : (Z.of_nat 5 < 2 ^ 53)%Z) by reflexivity.
  split; [exact H1|]. split; [exact H2|]. exact (render_progress_at_end 5 H1 H2).
Defined.
