(* ===== verification/Fasta.v ===== *)
(** * Fasta: what the filter promises, independently of how it scans

    A single-line FASTA input is a sequence of records, each a ['>'], a
    header line and a sequence line.  The bytes before a ['>'] are ignored
    and a record that has not seen its final ['\n'] is never finalised
    (spec §4.1).  This file states that as the grammar [Fasta].  It gives
    the reference scanner [pscan], which buffers the bytes of the current
    record: this is the pure transition function of the spec's design
    notes (§9).  It shows that [pscan] parses exactly the grammar and that
    parsing inverts printing.  It also defines the length filter of a run
    ([keep], [too_short], [too_long]) and the output [filter_fasta] that
    [read_write_entries] must produce. *)

From S2P Require Import Prelude.

(** ** Records and their bytes *)

Record record := mk_record { header : list byte; sequence : list byte }.

(** The bytes of a record as it appears in the file: ['>'], the header
    line, ['\n'], the sequence line, ['\n']. *)
Definition print_record (r : record) : list byte :=
  GT :: header r ++ NL :: sequence r ++ [NL].

Definition print_records (rs : list record) : list byte :=
  concat (map print_record rs).

(** A record can be printed and read back when its two lines hold no
    newline. *)
Definition wf_record (r : record) : Prop := (NL ∉ header r) /\ (NL ∉ sequence r).

(** ** The grammar *)

(** [Fasta l rs]: the input [l] is the records [rs], each preceded by
    bytes with no ['>'], followed by a tail that is never finalised:
    junk, an open header line, or an open sequence line. *)
Inductive Fasta : list byte -> list record -> Prop :=
  | Fasta_junk junk :
      GT ∉ junk -> Fasta junk []
  | Fasta_open_header junk h :
      GT ∉ junk -> NL ∉ h -> Fasta (junk ++ GT :: h) []
  | Fasta_open_sequence junk h s :
      GT ∉ junk -> NL ∉ h -> NL ∉ s -> Fasta (junk ++ GT :: h ++ NL :: s) []
  | Fasta_record junk h s rest rs :
      GT ∉ junk -> NL ∉ h -> NL ∉ s -> Fasta rest rs ->
      Fasta (junk ++ GT :: h ++ NL :: s ++ NL :: rest) (mk_record h s :: rs).

(** ** The reference scanner *)

(** Idle, in a header line (with the header bytes so far) or in a
    sequence line (with the header and the sequence bytes so far). *)
Inductive pstate :=
  | PIdle
  | PHeader (h : list byte)
  | PSeq (h s : list byte).

(** One byte: the next state and the record it finalises, if any. *)
Definition pstep (st : pstate) (b : byte) : pstate * option record :=
  match st with
  | PIdle => if decide (b = GT) then (PHeader [], None) else (PIdle, None)
  | PHeader h => if decide (b = NL) then (PSeq h [], None) else (PHeader (h ++ [b]), None)
  | PSeq h s =>
      if decide (b = NL) then (PIdle, Some (mk_record h s)) else (PSeq h (s ++ [b]), None)
  end.

(** A whole list of bytes: the final state and the records finalised, in
    order. *)
Fixpoint pscan (st : pstate) (l : list byte) : pstate * list record :=
  match l with
  | [] => (st, [])
  | b :: l' =>
      let '(st1, o) := pstep st b in
      let '(st2, rs) := pscan st1 l' in
      (st2, option_list o ++ rs)
  end.

Definition records (l : list byte) : list record := (pscan PIdle l).2.

(** ** The length filter of a run *)

(** The bounds of the run; [maximum = 0] means no upper bound. *)
Record filter_range := mk_range { minimum : nat; maximum : nat }.

Definition too_short (rg : filter_range) (n : nat) : Prop := n < minimum rg.
Definition too_long (rg : filter_range) (n : nat) : Prop :=
  minimum rg <= n /\ 0 < maximum rg /\ maximum rg < n.
Definition keep (rg : filter_range) (n : nat) : Prop :=
  minimum rg <= n /\ (maximum rg = 0 \/ n <= maximum rg).

#[export] Instance too_short_dec rg n : Decision (too_short rg n).
Proof. unfold too_short. apply _. Defined.
#[export] Instance too_long_dec rg n : Decision (too_long rg n).
Proof. unfold too_long. apply _. Defined.
#[export] Instance keep_dec rg n : Decision (keep rg n).
Proof. unfold keep. apply _. Defined.

Definition rec_len (r : record) : nat := length (sequence r).

(** The output the filter must produce: the kept records, in order, byte
    for byte. *)
Definition filter_fasta (rg : filter_range) (l : list byte) : list byte :=
  print_records (filter (fun r => keep rg (rec_len r)) (records l)).

(** The number of records of [l] whose length satisfies [P]. *)
Definition count_records (P : nat -> Prop) `{forall n, Decision (P n)}
    (l : list byte) : nat :=
  length (filter (fun r => P (rec_len r)) (records l)).

(** The bytes a scanner state stands for, and its well-formedness. *)
Definition pending (st : pstate) : list byte :=
  match st with
  | PIdle => []
  | PHeader h => GT :: h
  | PSeq h s => GT :: h ++ NL :: s
  end.

Definition wf_pstate (st : pstate) : Prop :=
  match st with
  | PIdle => True
  | PHeader h => NL ∉ h
  | PSeq h s => (NL ∉ h) /\ (NL ∉ s)
  end.

(** ** The reference scanner on concatenations and chunks *)

Lemma pscan_app st l1 l2 :
  pscan st (l1 ++ l2) =
    let '(s1, r1) := pscan st l1 in let '(s2, r2) := pscan s1 l2 in (s2, r1 ++ r2).
Proof.
  revert st. induction l1 as [|b l1 IH]; intros st; simpl.
  - by destruct (pscan st l2).
  - destruct (pstep st b) as [st1 o]. rewrite IH.
    destruct (pscan st1 l1) as [s1 r1], (pscan s1 l2) as [s2 r2].
    by rewrite app_assoc.
Qed.

Lemma pscan_cons st b l :
  pscan st (b :: l) =
    ((pscan (pstep st b).1 l).1, option_list (pstep st b).2 ++ (pscan (pstep st b).1 l).2).
Proof. simpl. destruct (pstep st b), (pscan _ l); done. Qed.

Lemma pscan_junk j : GT ∉ j -> pscan PIdle j = (PIdle, []).
Proof.
  induction j as [|b j IH]; intros Hj; simpl; [done|].
  apply not_elem_of_cons in Hj as [Hb Hj].
  rewrite decide_False by done. by rewrite IH.
Qed.

Lemma pscan_header h x : NL ∉ x -> pscan (PHeader h) x = (PHeader (h ++ x), []).
Proof.
  revert h. induction x as [|b x IH]; intros h Hx; simpl; [by rewrite app_nil_r|].
  apply not_elem_of_cons in Hx as [Hb Hx].
  rewrite decide_False by done. rewrite IH by done. by rewrite <- app_assoc.
Qed.

Lemma pscan_sequence h s x : NL ∉ x -> pscan (PSeq h s) x = (PSeq h (s ++ x), []).
Proof.
  revert s. induction x as [|b x IH]; intros s Hx; simpl; [by rewrite app_nil_r|].
  apply not_elem_of_cons in Hx as [Hb Hx].
  rewrite decide_False by done. rewrite IH by done. by rewrite <- app_assoc.
Qed.

Lemma pstep_GT : pstep PIdle GT = (PHeader [], None).
Proof. reflexivity. Qed.

Lemma pstep_header_NL h : pstep (PHeader h) NL = (PSeq h [], None).
Proof. reflexivity. Qed.

Lemma pstep_sequence_NL h s : pstep (PSeq h s) NL = (PIdle, Some (mk_record h s)).
Proof. reflexivity. Qed.

(** Scanning one whole record from the idle state, junk included. *)
Lemma pscan_record junk h s :
  GT ∉ junk -> NL ∉ h -> NL ∉ s ->
  pscan PIdle (junk ++ GT :: h ++ NL :: s ++ [NL]) = (PIdle, [mk_record h s]).
Proof.
  intros Hj Hh Hs. rewrite pscan_app, pscan_junk by done. simpl.
  rewrite pscan_app, pscan_header by done. simpl.
  rewrite pscan_app, pscan_sequence by done. done.
Qed.

(** ** The grammar is exactly what [records] computes *)

Lemma Fasta_records l rs : Fasta l rs -> records l = rs.
Proof.
  unfold records. induction 1 as [junk Hj|junk h Hj Hh|junk h s Hj Hh Hs
    |junk h s rest rs Hj Hh Hs _ IH].
  - by rewrite pscan_junk.
  - rewrite pscan_app, pscan_junk by done. simpl. by rewrite pscan_header.
  - rewrite pscan_app, pscan_junk by done. simpl.
    rewrite pscan_app, pscan_header by done. simpl. by rewrite pscan_sequence.
  - replace (junk ++ GT :: h ++ NL :: s ++ NL :: rest)
      with ((junk ++ GT :: h ++ NL :: s ++ [NL]) ++ rest)
      by (app_norm; done).
    rewrite pscan_app, pscan_record by done.
    destruct (pscan PIdle rest) as [s2 r2]. simpl in *. by subst.
Qed.

Lemma Fasta_cons_junk b l rs : b <> GT -> Fasta l rs -> Fasta (b :: l) rs.
Proof.
  intros Hb HF. assert (Hj : forall j, GT ∉ j -> GT ∉ b :: j)
    by (intros j ?; apply not_elem_of_cons; auto).
  destruct HF.
  - apply Fasta_junk; auto.
  - apply (Fasta_open_header (b :: junk)); auto.
  - apply (Fasta_open_sequence (b :: junk)); auto.
  - apply (Fasta_record (b :: junk)); auto.
Qed.

Lemma not_elem_of_snoc (x b : byte) l : x ∉ l -> b <> x -> x ∉ l ++ [b].
Proof. intros ? ? [?|?%list_elem_of_singleton]%elem_of_app; auto. Qed.

Lemma Fasta_pscan st l : wf_pstate st -> Fasta (pending st ++ l) (pscan st l).2.
Proof.
  revert st. induction l as [|b l IH]; intros st Hst.
  - destruct st as [|h|h s]; simpl in *; rewrite ?app_nil_r.
    + by apply Fasta_junk, not_elem_of_nil.
    + apply (Fasta_open_header []); [apply not_elem_of_nil|done].
    + destruct Hst. apply (Fasta_open_sequence []); [apply not_elem_of_nil|done..].
  - rewrite pscan_cons.
    assert (Hnext : forall st', wf_pstate st' -> pending st' ++ l = pending st ++ b :: l ->
      Fasta (pending st ++ b :: l) (pscan st' l).2)
      by (intros st' ? <-; by apply IH).
    destruct st as [|h|h s]; simpl in *.
    + case_decide; subst; simpl.
      * apply (Hnext (PHeader [])); [apply not_elem_of_nil|done].
      * apply Fasta_cons_junk; [done|]. by apply (IH PIdle).
    + case_decide; subst; simpl.
      * apply (Hnext (PSeq h [])); [split; [done|apply not_elem_of_nil]|].
        simpl. by app_norm.
      * apply (Hnext (PHeader (h ++ [b]))); [by apply not_elem_of_snoc|].
        simpl. by app_norm.
    + destruct Hst as [Hh Hs]. case_decide; subst; simpl.
      * app_norm. apply (Fasta_record []); [apply not_elem_of_nil|done|done|].
        by apply (IH PIdle).
      * apply (Hnext (PSeq h (s ++ [b]))); [split; [done|by apply not_elem_of_snoc]|].
        simpl. by app_norm.
Qed.

Lemma records_Fasta l : Fasta l (records l).
Proof. apply (Fasta_pscan PIdle l I). Qed.

Lemma Fasta_iff l rs : Fasta l rs <-> records l = rs.
Proof. split; [apply Fasta_records|intros <-; apply records_Fasta]. Qed.

Lemma Fasta_wf l rs : Fasta l rs -> Forall wf_record rs.
Proof. induction 1; constructor; unfold wf_record; auto. Qed.

Lemma records_wf l : Forall wf_record (records l).
Proof. apply (Fasta_wf l), records_Fasta. Qed.

(** ** Printing and parsing *)

Lemma Fasta_print rs : Forall wf_record rs -> Fasta (print_records rs) rs.
Proof.
  induction 1 as [|[h s] rs [Hh Hs] _ IH]; simpl.
  - by apply Fasta_junk, not_elem_of_nil.
  - unfold print_records in *. simpl. unfold print_record; simpl. app_norm.
    apply (Fasta_record []); [apply not_elem_of_nil|done..].
Qed.

Lemma records_print rs : Forall wf_record rs -> records (print_records rs) = rs.
Proof. intros. by apply Fasta_records, Fasta_print. Qed.

(** The records of the filter's output are the kept records. *)
Lemma records_filter_fasta rg l :
  records (filter_fasta rg l) = filter (fun r => keep rg (rec_len r)) (records l).
Proof. apply records_print, Forall_filter_sub, records_wf. Qed.

(** Filtering the output of the filter again changes nothing. *)
Lemma filter_fasta_idempotent rg l : filter_fasta rg (filter_fasta rg l) = filter_fasta rg l.
Proof.
  unfold filter_fasta at 1. rewrite records_filter_fasta, list_filter_filter_l; done.
Qed.

(** A last record whose sequence line has no final newline is dropped. *)
Lemma records_dangling l h s :
  (pscan PIdle l).1 = PIdle -> NL ∉ h -> NL ∉ s ->
  records (l ++ GT :: h ++ NL :: s) = records l.
Proof.
  intros Hl Hh Hs. unfold records. rewrite pscan_app.
  destruct (pscan PIdle l) as [s1 r1]. simpl in Hl; subst. simpl.
  rewrite pscan_app, pscan_header by done. simpl.
  rewrite pscan_sequence by done. simpl. by rewrite app_nil_r.
Qed.

(** The three verdicts partition the lengths. *)
Lemma verdict_cases rg n :
  (too_short rg n /\ ~ too_long rg n /\ ~ keep rg n) \/
  (~ too_short rg n /\ too_long rg n /\ ~ keep rg n) \/
  (~ too_short rg n /\ ~ too_long rg n /\ keep rg n).
Proof. unfold too_short, too_long, keep. lia. Qed.

(** Scanning one more byte. *)
Lemma pscan_snoc st l b :
  pscan st (l ++ [b]) =
    ((pstep (pscan st l).1 b).1, (pscan st l).2 ++ option_list (pstep (pscan st l).1 b).2).
Proof.
  rewrite pscan_app. destruct (pscan st l) as [s1 r1]. simpl.
  destruct (pstep s1 b) as [s2 o]. simpl. by rewrite app_nil_r.
Qed.

(** A record takes at least three bytes: ['>'] and two newlines. *)
Lemma Fasta_length l rs : Fasta l rs -> 3 * length rs <= length l.
Proof. induction 1; simpl; repeat progress (rewrite ?length_app; simpl); lia. Qed.

Lemma records_length l : 3 * length (records l) <= length l.
Proof. apply Fasta_length, records_Fasta. Qed.
