(* ===== verification/Engine.v ===== *)
(** * Engine: [read_write_entries] (src/main.c:49-121)

    The locals of the function are the record [locals].  The two files and
    stdout are the record [io], over any input file that satisfies the
    [SeekableFile] interface.  The function is translated statement by
    statement:
    - lines 62-72, the initialisation and the [fseek]/[ftell] that measure
      the file: [start];
    - lines 74-76, the line count: [count_line];
    - lines 77-107, the [if]/[else if] chain on [state]: [dispatch], with
      the classification of lines 93-97 as [classify] and the copy-back
      loop of lines 99-102 as [copy_loop];
    - lines 108-112, the progress report: [report_progress];
    - the body of the [while] of line 73: [loop_iteration]; the loop
      itself: [main_loop], and also the step relation [step];
    - lines 114-120, the final lines: [read_write_entries].

    The loops are [Fixpoint]s on fuel, and [None] is a loop that does not
    terminate.  The copy-back lemmas are here: [copy_loop] copies exactly
    the bytes between the cursor and its target and stops there, and it
    never terminates when the target lies past the end of the file. *)

From S2P Require Import Prelude Stdio.

(** ** Constants and the context *)

(** [#define STATE_NONE 0], [STATE_HEADER 1], [STATE_SEQUENCE 2]: the
    only values the code ever stores in [state]. *)
Inductive parser_state := STATE_NONE | STATE_HEADER | STATE_SEQUENCE.

#[export] Instance parser_state_eq_dec : EqDecision parser_state.
Proof. solve_decision. Defined.

Definition PROGRESS_DIVISOR : nat := 100.

(** The fields of [struct context] that the engine reads besides the two
    [FILE *]: two [uint32_t] bounds and the [uint8_t] progress flag. *)
Record config := mk_config {
  sequence_length_minimum : nat;
  sequence_length_maximum : nat;
  show_progress : nat
}.

(** ** The locals of [read_write_entries] *)

(** [byte] and [file_position] live for one iteration only and are not
    fields. *)
Record locals := mk_locals {
  state : parser_state;
  header_position : nat;
  sequence_position : nat;
  sequence_size : nat;
  file_size : nat;
  total_of_sequences_kept : nat;
  total_of_sequences_discarded_above_maximum : nat;
  total_of_sequences_discarded_bellow_minimum : nat;
  current_line : nat
}.

(** Assignments to one local. *)
Definition set_state s (l : locals) : locals :=
  let 'mk_locals _ hp sp ss fs k a b c := l in mk_locals s hp sp ss fs k a b c.
Definition set_header_position hp (l : locals) : locals :=
  let 'mk_locals st _ sp ss fs k a b c := l in mk_locals st hp sp ss fs k a b c.
Definition set_sequence_position sp (l : locals) : locals :=
  let 'mk_locals st hp _ ss fs k a b c := l in mk_locals st hp sp ss fs k a b c.
Definition set_sequence_size ss (l : locals) : locals :=
  let 'mk_locals st hp sp _ fs k a b c := l in mk_locals st hp sp ss fs k a b c.
Definition set_file_size fs (l : locals) : locals :=
  let 'mk_locals st hp sp ss _ k a b c := l in mk_locals st hp sp ss fs k a b c.
Definition set_kept k (l : locals) : locals :=
  let 'mk_locals st hp sp ss fs _ a b c := l in mk_locals st hp sp ss fs k a b c.
Definition set_above a (l : locals) : locals :=
  let 'mk_locals st hp sp ss fs k _ b c := l in mk_locals st hp sp ss fs k a b c.
Definition set_below b (l : locals) : locals :=
  let 'mk_locals st hp sp ss fs k a _ c := l in mk_locals st hp sp ss fs k a b c.
Definition set_current_line c (l : locals) : locals :=
  let 'mk_locals st hp sp ss fs k a b _ := l in mk_locals st hp sp ss fs k a b c.

(** Lines 62-69.  [file_size] is assigned at line 71. *)
Definition initial_locals : locals := mk_locals STATE_NONE 0 0 0 0 0 0 0 1.

(** ** The classification of a finished record, lines 93-97 *)

Inductive verdict := Below | Above | Kept.

Definition classify (cfg : config) (size : nat) : verdict :=
  if decide (size < sequence_length_minimum cfg) then Below
  else if bool_decide (sequence_length_maximum cfg < size)
          && bool_decide (0 < sequence_length_maximum cfg) then Above
  else Kept.

Section Engine.
Context {F : Type} `{SeekableFile F}.

(** The input file, the bytes written to the output file, and stdout. *)
Record io := mk_io { file_input : F; file_output : list byte; stdout : list line }.

Definition set_input (f : F) (w : io) : io := mk_io f (file_output w) (stdout w).

(** ** The copy-back loop, lines 100-102

    [while ((uint64_t)ftell(in) < target) fputc(fgetc(in), out);] *)
Fixpoint copy_loop (fuel target : nat) (f : F) (out : list byte) : option (F * list byte) :=
  match fuel with
  | O => None
  | S fuel' =>
      if decide (ftell f < target) then
        let '(c, f') := fgetc f in copy_loop fuel' target f' (fputc c out)
      else Some (f, out)
  end.

(** ** The chain on [state], lines 77-107 *)

Definition dispatch (cfg : config) (b : byte) (l : locals) (w : io) : option (locals * io) :=
  match state l with
  | STATE_NONE =>
      if decide (b = GT) then
        Some (set_header_position (ftell (file_input w) - 1) (set_state STATE_HEADER l), w)
      else Some (l, w)
  | STATE_HEADER =>
      if decide (b = NL) then
        Some (set_sequence_size 0
               (set_sequence_position (ftell (file_input w)) (set_state STATE_SEQUENCE l)), w)
      else Some (l, w)
  | STATE_SEQUENCE =>
      if decide (b = NL) then
        let l := set_state STATE_NONE l in
        match classify cfg (sequence_size l) with
        | Below =>
            Some (set_below (total_of_sequences_discarded_bellow_minimum l + 1) l, w)
        | Above =>
            Some (set_above (total_of_sequences_discarded_above_maximum l + 1) l, w)
        | Kept =>
            let l := set_kept (total_of_sequences_kept l + 1) l in
            let f := fseek (file_input w) (header_position l) SEEK_SET in
            let target := sequence_position l + sequence_size l + 1 in
            match copy_loop (S target) target f (file_output w) with
            | Some (f', out') => Some (l, mk_io f' out' (stdout w))
            | None => None
            end
        end
      else Some (set_sequence_size (sequence_size l + 1) l, w)
  end.

(** ** One iteration of the [while] loop *)

(** Lines 74-76. *)
Definition count_line (b : byte) (l : locals) : locals :=
  if decide (b = NL) then set_current_line (current_line l + 1) l else l.

(** Lines 108-112. *)
Definition report_progress (cfg : config) (l : locals) (w : io) : io :=
  let file_position := ftell (file_input w) in
  if decide (show_progress cfg = 1 /\
             (file_position mod PROGRESS_DIVISOR = 0 \/ file_size l <= file_position))
  then mk_io (file_input w) (file_output w) (stdout w ++ [LProgress file_position (file_size l)])
  else w.

(** Lines 74-112, after [fread] has read [b]. *)
Definition loop_iteration (cfg : config) (b : byte) (l : locals) (w : io)
    : option (locals * io) :=
  match dispatch cfg b (count_line b l) w with
  | Some (l', w') => Some (l', report_progress cfg l' w')
  | None => None
  end.

(** ** The loop, line 73, and the function *)

Fixpoint main_loop (fuel : nat) (cfg : config) (l : locals) (w : io) : option (locals * io) :=
  match fuel with
  | O => None
  | S fuel' =>
      let '(rb, f) := fread (file_input w) in
      match rb with
      | None => Some (l, set_input f w)
      | Some b =>
          match loop_iteration cfg b l (set_input f w) with
          | Some (l', w') => main_loop fuel' cfg l' w'
          | None => None
          end
      end
  end.

(** Lines 62-72: the state in which the loop starts. *)
Definition start (w : io) : locals * io :=
  let f := fseek (file_input w) 0 SEEK_END in
  let size := ftell f in
  let f := fseek f 0 SEEK_SET in
  (set_file_size size initial_locals, set_input f w).

(** Lines 114-120. *)
Definition final_lines (cfg : config) (l : locals) : list line :=
  (if decide (show_progress cfg = 1) then [LNewline] else []) ++
  [LKept (total_of_sequences_kept l);
   LBelow (total_of_sequences_discarded_bellow_minimum l);
   LAbove (total_of_sequences_discarded_above_maximum l)].

Definition read_write_entries (cfg : config) (w : io) : option (locals * io) :=
  let '(l0, w0) := start w in
  match main_loop (S (file_size l0)) cfg l0 w0 with
  | Some (l, w') =>
      Some (l, mk_io (file_input w') (file_output w') (stdout w' ++ final_lines cfg l))
  | None => None
  end.

(** ** The loop as a step relation *)

(** One iteration: [fread] reads a byte and the body runs to its end. *)
Inductive step (cfg : config) : locals * io -> locals * io -> Prop :=
  | step_iteration l w b f l' w' :
      fread (file_input w) = (Some b, f) ->
      loop_iteration cfg b l (set_input f w) = Some (l', w') ->
      step cfg (l, w) (l', w').

(** The loop exits: [fread] reads nothing. *)
Definition loop_exits (s : locals * io) : Prop := (fread (file_input s.2)).1 = None.

Definition reachable (cfg : config) (w : io) (s : locals * io) : Prop :=
  rtc (step cfg) (start w) s.

End Engine.

Arguments io : clear implicits.

(** ** A small run for the witnesses: the input [">A\nC\n"] *)

Definition ex_input : list byte := [GT; "A"%byte; NL; "C"%byte; NL].
Definition ex_cfg : config := mk_config 0 0 1.
Definition ex_io : io mem_file := mk_io (MemFile ex_input 0) [] [].

(** The state after [n] iterations of the loop (or after the last). *)
Fixpoint iterate (n : nat) (cfg : config) (s : locals * io mem_file) : locals * io mem_file :=
  match n with
  | O => s
  | S n' =>
      match fread (file_input s.2) with
      | (Some b, f) =>
          match loop_iteration cfg b s.1 (set_input f s.2) with
          | Some s' => iterate n' cfg s'
          | None => s
          end
      | (None, _) => s
      end
  end.

Definition ex_state (n : nat) : locals * io mem_file := iterate n ex_cfg (start ex_io).

(** [n] concrete steps, each checked by evaluation. *)
Tactic Notation "reach" integer(n) :=
  unfold reachable; do n (eapply rtc_l; [econstructor; reflexivity|]); apply rtc_refl.

Section CopyLoop.
Context {F : Type} `{SeekableFile F}.

(** ** The copy-back loop *)

(** From a cursor at or before [target], within the file, [copy_loop]
    appends the bytes from the cursor up to [target] to the output and
    leaves the cursor at [target]. *)
Lemma copy_loop_copies n target (f : F) out :
  cursor f <= target -> target <= length (contents f) -> target - cursor f < n ->
  exists f', copy_loop n target f out = Some (f', out ++ (contents f).[cursor f, target))
    /\ cursor f' = target /\ contents f' = contents f.
Proof.
  revert f out. induction n as [|n IH]; intros f out Hle Hlen Hn; [lia|]. simpl.
  unfold ftell. case_decide as Hlt.
  - destruct (lookup_lt_is_Some_2 (contents f) (cursor f)) as [b Hb]; [lia|].
    destruct (fgetc_some f b Hb) as (Hc & Hcur & Hcon).
    destruct (fgetc f) as [c f'] eqn:E. simpl in *. subst c.
    destruct (IH f' (fputc (int_of_byte b) out)) as (f'' & Hrun & Hcur' & Hcon');
      [lia|rewrite Hcon; lia|lia|].
    exists f''. rewrite Hrun, Hcon', Hcon, Hcur. split; [|done].
    unfold fputc. rewrite byte_of_int_of_byte, (window_cons _ _ _ b Hb) by lia.
    by rewrite <- app_assoc.
  - exists f. replace target with (cursor f) by lia. by rewrite window_nil, app_nil_r.
Qed.

(** C5. Past the end of the file [fgetc] returns [EOF] and the cursor stays,
    so a target beyond the end is never reached: the loop does not
    terminate, whatever the fuel. *)
Lemma copy_loop_never_returns n target (f : F) out :
  length (contents f) < target -> cursor f <= length (contents f) ->
  copy_loop n target f out = None.
Proof.
  revert f out. induction n as [|n IH]; intros f out Hlen Hle; [done|]. simpl.
  unfold ftell. rewrite decide_True by lia.
  destruct (contents f !! cursor f) as [b|] eqn:Hb.
  - destruct (fgetc_some f b Hb) as (_ & Hcur & Hcon).
    destruct (fgetc f) as [c f'] eqn:E. simpl in *.
    apply IH; rewrite Hcon; [done|]. apply lookup_lt_Some in Hb. lia.
  - destruct (fgetc_none f Hb) as (_ & Hcur & Hcon).
    destruct (fgetc f) as [c f'] eqn:E. simpl in *. apply IH; rewrite Hcon; lia.
Qed.

(** C4. The copy-back as [dispatch] runs it, lines 99-102: after
    [fseek(in, header_position, SEEK_SET)] and with the fuel [S target],
    for any [header_position] up to a [target] within the file, the loop
    terminates, appends exactly the bytes from [header_position] up to
    [target] to the output, and leaves the cursor at [target]. *)
Theorem copy_back_copies_record (f : F) out hp target :
  hp <= target -> target <= length (contents f) ->
  exists f', copy_loop (S target) target (fseek f hp SEEK_SET) out =
               Some (f', out ++ (contents f).[hp, target)) /\
             cursor f' = target /\ contents f' = contents f.
Proof.
  intros Hle Hlen.
  destruct (copy_loop_copies (S target) target (fseek f hp SEEK_SET) out)
    as (f' & Hrun & Hc & Hn); autorewrite with fasta_rw in *; [lia..|].
  exists f'. by rewrite Hrun, Hn.
Qed.

End CopyLoop.

Lemma copy_back_copies_record_witness :
  let f := MemFile ex_input 2 in
  0 <= 5 /\ 5 <= length (contents f) /\
  exists f', copy_loop 6 5 (fseek f 0 SEEK_SET) [] = Some (f', [] ++ (contents f).[0, 5))
    /\ cursor f' = 5 /\ contents f' = contents f.
Proof.
  intros f. assert (H1 : 0 <= 5) by lia. assert (H2 : 5 <= length (contents f)) by (simpl; lia).
  split; [exact H1|]. split; [exact H2|]. exact (copy_back_copies_record f [] 0 5 H1 H2).
Defined.

Lemma copy_loop_never_returns_witness :
  let f := MemFile ex_input 2 in
  length (contents f) < 9 /\ cursor f <= length (contents f) /\ copy_loop 100 9 f [] = None.
Proof.
  intros f. split; [simpl; lia|]. split; [simpl; lia|].
  apply copy_loop_never_returns; simpl; lia.
Defined.
