(* ===== verification/EngineInv.v ===== *)
(** * EngineInv: the engine simulates the reference scanner

    After [pos] bytes of the input [inp] have been consumed, the engine's
    locals stand for the state of [pscan] on [take pos inp]:
    - [STATE_NONE] is [PIdle];
    - [STATE_HEADER] is [PHeader h], where the window from
      [header_position] up to the cursor holds ['>'] and then [h];
    - [STATE_SEQUENCE] is [PSeq h s], where the window holds ['>'], [h],
      ['\n'] and [s], with [sequence_position] just after that ['\n'] and
      [sequence_size = length s].

    The record [inv] adds what the engine has produced so far, in terms
    of the records [pscan] has finalised: the output file, the three
    counters, the line count and the progress lines.  Every iteration
    preserves [inv] and moves the cursor exactly one byte forward
    ([step_inv]), even when it seeks back and copies a record.  [inv]
    therefore holds in every reachable state. *)

From S2P Require Import Prelude Stdio Fasta Engine.

(** ** What the engine has produced, in terms of finalised records *)

Definition range_of (cfg : config) : filter_range :=
  mk_range (sequence_length_minimum cfg) (sequence_length_maximum cfg).

Definition n_kept (cfg : config) (rs : list record) : nat :=
  length (filter (fun r => keep (range_of cfg) (rec_len r)) rs).
Definition n_below (cfg : config) (rs : list record) : nat :=
  length (filter (fun r => too_short (range_of cfg) (rec_len r)) rs).
Definition n_above (cfg : config) (rs : list record) : nat :=
  length (filter (fun r => too_long (range_of cfg) (rec_len r)) rs).
Definition emitted (cfg : config) (rs : list record) : list byte :=
  print_records (filter (fun r => keep (range_of cfg) (rec_len r)) rs).

(** The condition of line 109 at cursor position [p]. *)
Definition progress_due (cfg : config) (size p : nat) : Prop :=
  show_progress cfg = 1 /\ (p mod PROGRESS_DIVISOR = 0 \/ size <= p).

(** The progress lines printed once the cursor has been at [1 .. pos]. *)
Definition progress_lines (cfg : config) (size pos : nat) : list line :=
  map (fun p => LProgress p size) (filter (progress_due cfg size) (seq 1 pos)).

(** ** The invariant *)

Definition state_matches (inp : list byte) (pos : nat) (l : locals) (ps : pstate) : Prop :=
  match state l, ps with
  | STATE_NONE, PIdle =>
      header_position l <= pos /\ sequence_position l + sequence_size l <= pos
  | STATE_HEADER, PHeader h =>
      header_position l + S (length h) = pos /\ inp.[header_position l, pos) = GT :: h /\
      sequence_position l + sequence_size l <= pos
  | STATE_SEQUENCE, PSeq h s =>
      sequence_position l = header_position l + length h + 2 /\
      sequence_size l = length s /\ sequence_position l + length s = pos /\
      inp.[header_position l, pos) = GT :: h ++ NL :: s
  | _, _ => False
  end.

Section Inv.
Context {F : Type} `{SeekableFile F}.

Record inv (cfg : config) (w0 : io F) (s : locals * io F) : Prop := {
  inv_contents : contents (file_input s.2) = contents (file_input w0);
  inv_pos : cursor (file_input s.2) <= length (contents (file_input w0));
  inv_size : file_size s.1 = length (contents (file_input w0));
  inv_state : state_matches (contents (file_input w0)) (cursor (file_input s.2)) s.1
      (pscan PIdle (take (cursor (file_input s.2)) (contents (file_input w0)))).1;
  inv_output : file_output s.2 = file_output w0 ++
      emitted cfg (records (take (cursor (file_input s.2)) (contents (file_input w0))));
  inv_kept : total_of_sequences_kept s.1 =
      n_kept cfg (records (take (cursor (file_input s.2)) (contents (file_input w0))));
  inv_below : total_of_sequences_discarded_bellow_minimum s.1 =
      n_below cfg (records (take (cursor (file_input s.2)) (contents (file_input w0))));
  inv_above : total_of_sequences_discarded_above_maximum s.1 =
      n_above cfg (records (take (cursor (file_input s.2)) (contents (file_input w0))));
  inv_line : current_line s.1 =
      1 + count_byte NL (take (cursor (file_input s.2)) (contents (file_input w0)));
  inv_stdout : stdout s.2 = stdout w0 ++
      progress_lines cfg (length (contents (file_input w0))) (cursor (file_input s.2))
}.

(** What one call of [dispatch] does, for the byte at [pos] and the
    scanner's step [(st', o)] on it: the cursor ends one byte further on,
    the new state stands for [st'], the record [o] (if any) is emitted when
    kept and counted under its verdict, and nothing else changes. *)
Definition dispatch_post (cfg : config) (inp : list byte) (pos : nat)
    (l : locals) (w : io F) (st' : pstate) (o : option record)
    (l' : locals) (w' : io F) : Prop :=
  cursor (file_input w') = S pos /\ contents (file_input w') = inp /\
  state_matches inp (S pos) l' st' /\
  file_output w' = file_output w ++ emitted cfg (option_list o) /\
  stdout w' = stdout w /\
  total_of_sequences_kept l' = total_of_sequences_kept l + n_kept cfg (option_list o) /\
  total_of_sequences_discarded_bellow_minimum l' =
    total_of_sequences_discarded_bellow_minimum l + n_below cfg (option_list o) /\
  total_of_sequences_discarded_above_maximum l' =
    total_of_sequences_discarded_above_maximum l + n_above cfg (option_list o) /\
  file_size l' = file_size l /\ current_line l' = current_line l.

End Inv.

(** ** The verdict of [classify] and the counts of one record *)

Lemma classify_counts cfg r :
  (n_kept cfg [r], n_below cfg [r], n_above cfg [r], emitted cfg [r]) =
  match classify cfg (rec_len r) with
  | Kept => (1, 0, 0, print_record r)
  | Below => (0, 1, 0, [])
  | Above => (0, 0, 1, [])
  end.
Proof.
  unfold n_kept, n_below, n_above, emitted, classify, print_records.
  rewrite !filter_cons, !filter_nil.
  unfold keep, too_short, too_long, range_of; simpl.
  repeat (case_decide || case_bool_decide); simpl in *;
    rewrite ?app_nil_r; try done; lia.
Qed.

Lemma n_kept_nil cfg : n_kept cfg [] = 0.
Proof. done. Qed.
Lemma n_below_nil cfg : n_below cfg [] = 0.
Proof. done. Qed.
Lemma n_above_nil cfg : n_above cfg [] = 0.
Proof. done. Qed.
Lemma emitted_nil cfg : emitted cfg [] = [].
Proof. done. Qed.

(** Every finalised record is counted under exactly one verdict. *)
Lemma counts_partition cfg rs : n_kept cfg rs + n_below cfg rs + n_above cfg rs = length rs.
Proof.
  induction rs as [|r rs IH]; [done|].
  pose proof (classify_counts cfg r) as Hc.
  unfold n_kept, n_below, n_above in *. rewrite !filter_cons in *. simpl in *.
  destruct (classify cfg (rec_len r)); injection Hc as Hk Hb Ha _;
    repeat case_decide; simpl in *; lia.
Qed.

#[export] Hint Rewrite n_kept_nil n_below_nil n_above_nil emitted_nil : fasta_rw.

(** Close the conjuncts of a [dispatch_post]. *)
Ltac post_solve :=
  repeat split; autorewrite with fasta_rw; rewrite ?app_nil_r; try reflexivity; try lia.

(** ** [dispatch], state by state *)

Section Dispatch.
Context {F : Type} `{SeekableFile F}.
Context (cfg : config) (inp : list byte) (pos : nat) (b : byte) (f : F) (w : io F).
(** [fread] has just read [b], the byte at [pos]. *)
Hypothesis Hb : inp !! pos = Some b.
Hypothesis Hcur : cursor f = S pos.
Hypothesis Hcon : contents f = inp.

Local Lemma pos_lt : pos < length inp.
Proof. by apply lookup_lt_Some in Hb. Qed.

Local Lemma window_step a : a <= pos -> inp.[a, S pos) = inp.[a, pos) ++ [b].
Proof. intros. by apply window_snoc. Qed.

Lemma dispatch_idle l :
  state l = STATE_NONE -> state_matches inp pos l PIdle ->
  exists l' w', dispatch cfg b l (set_input f w) = Some (l', w') /\
    dispatch_post cfg inp pos l (set_input f w) (pstep PIdle b).1 (pstep PIdle b).2 l' w'.
Proof.
  destruct l as [st hp sp ss fs k a bl c]; unfold state_matches; simpl.
  intros -> [Hhp Hsp]. unfold dispatch; simpl.
  case_decide as HGT; eexists _, _; split; try reflexivity.
  - unfold dispatch_post, state_matches; simpl. unfold ftell. rewrite Hcur, Hcon.
    replace (S pos - 1) with pos by lia.
    rewrite window_step, window_nil, HGT by lia.
    post_solve.
  - unfold dispatch_post, state_matches; simpl. rewrite Hcur, Hcon.
    post_solve.
Qed.

Lemma dispatch_header l h :
  state l = STATE_HEADER -> state_matches inp pos l (PHeader h) ->
  exists l' w', dispatch cfg b l (set_input f w) = Some (l', w') /\
    dispatch_post cfg inp pos l (set_input f w)
      (pstep (PHeader h) b).1 (pstep (PHeader h) b).2 l' w'.
Proof.
  destruct l as [st hp sp ss fs k a bl c]; unfold state_matches; simpl.
  intros -> (Hhp & Hw & Hsp).
  unfold dispatch; simpl.
  case_decide as HNL; eexists _, _; split; try reflexivity;
    unfold dispatch_post, state_matches; simpl; unfold ftell; rewrite Hcur, Hcon;
    rewrite window_step, Hw by lia; rewrite ?HNL; app_norm; rewrite ?length_app; simpl;
    post_solve.
Qed.

Lemma dispatch_sequence l h s :
  state l = STATE_SEQUENCE -> state_matches inp pos l (PSeq h s) ->
  exists l' w', dispatch cfg b l (set_input f w) = Some (l', w') /\
    dispatch_post cfg inp pos l (set_input f w)
      (pstep (PSeq h s) b).1 (pstep (PSeq h s) b).2 l' w'.
Proof.
  destruct l as [st hp sp ss fs k a bl c]; unfold state_matches; simpl.
  intros -> (Hsp & Hss & Hpos & Hw). unfold dispatch; cbn -[copy_loop].
  case_decide as HNL.
  - (* the end of the sequence line: the record is finalised *)
    pose proof (classify_counts cfg (mk_record h s)) as Hcounts.
    unfold rec_len in Hcounts; simpl in Hcounts. rewrite <- Hss in Hcounts.
    destruct (classify cfg ss); injection Hcounts as Hk Hbe Hab He.
    + eexists _, _; split; [reflexivity|]. unfold dispatch_post, state_matches; simpl.
      rewrite Hcur, Hcon, Hk, Hbe, Hab, He. post_solve.
    + eexists _, _; split; [reflexivity|]. unfold dispatch_post, state_matches; simpl.
      rewrite Hcur, Hcon, Hk, Hbe, Hab, He. post_solve.
    + pose proof pos_lt.
      destruct (copy_loop_copies (S (sp + ss + 1)) (sp + ss + 1)
                  (seek_to f hp) (file_output w)) as (f' & Hrun & Hc' & Hn');
        rewrite ?seek_to_cursor, ?seek_to_contents, ?Hcon; [lia..|].
      rewrite Hrun. eexists _, _; split; [reflexivity|]. unfold dispatch_post, state_matches; simpl.
      rewrite Hc', Hn', Hk, Hbe, Hab, He, seek_to_contents, seek_to_cursor, Hcon.
      replace (sp + ss + 1) with (S pos) by lia.
      rewrite window_step, Hw, HNL by lia. unfold print_record; simpl. app_norm.
      post_solve.
  - eexists _, _; split; [reflexivity|]. unfold dispatch_post, state_matches; simpl.
    rewrite Hcur, Hcon, window_step, Hw by lia. app_norm. rewrite length_app. simpl.
    post_solve.
Qed.

End Dispatch.

(** ** The other parts of an iteration *)

Lemma emitted_app cfg rs1 rs2 : emitted cfg (rs1 ++ rs2) = emitted cfg rs1 ++ emitted cfg rs2.
Proof. unfold emitted, print_records. by rewrite list.filter_app, map_app, concat_app. Qed.
Lemma n_kept_app cfg rs1 rs2 : n_kept cfg (rs1 ++ rs2) = n_kept cfg rs1 + n_kept cfg rs2.
Proof. unfold n_kept. by rewrite list.filter_app, length_app. Qed.
Lemma n_below_app cfg rs1 rs2 : n_below cfg (rs1 ++ rs2) = n_below cfg rs1 + n_below cfg rs2.
Proof. unfold n_below. by rewrite list.filter_app, length_app. Qed.
Lemma n_above_app cfg rs1 rs2 : n_above cfg (rs1 ++ rs2) = n_above cfg rs1 + n_above cfg rs2.
Proof. unfold n_above. by rewrite list.filter_app, length_app. Qed.

#[export] Hint Rewrite emitted_app n_kept_app n_below_app n_above_app : fasta_rw.

Lemma progress_lines_S cfg size pos :
  progress_lines cfg size (S pos) = progress_lines cfg size pos ++
    (if decide (progress_due cfg size (S pos)) then [LProgress (S pos) size] else []).
Proof.
  unfold progress_lines. rewrite seq_S, list.filter_app, map_app. f_equal.
  rewrite filter_cons, filter_nil. simpl. by case_decide.
Qed.

Lemma count_line_state_matches inp pos b l ps :
  state_matches inp pos (count_line b l) ps <-> state_matches inp pos l ps.
Proof. unfold count_line. destruct l. by case_decide. Qed.

Lemma count_line_fields b l :
  total_of_sequences_kept (count_line b l) = total_of_sequences_kept l /\
  total_of_sequences_discarded_bellow_minimum (count_line b l) =
    total_of_sequences_discarded_bellow_minimum l /\
  total_of_sequences_discarded_above_maximum (count_line b l) =
    total_of_sequences_discarded_above_maximum l /\
  file_size (count_line b l) = file_size l /\
  current_line (count_line b l) = current_line l + (if decide (b = NL) then 1 else 0).
Proof. unfold count_line. destruct l. case_decide; simpl; auto with lia. Qed.

Section Progress.
Context {F : Type} `{SeekableFile F}.

Lemma report_progress_io cfg l (w : io F) :
  file_input (report_progress cfg l w) = file_input w /\
  file_output (report_progress cfg l w) = file_output w /\
  stdout (report_progress cfg l w) = stdout w ++
    (if decide (progress_due cfg (file_size l) (cursor (file_input w)))
     then [LProgress (cursor (file_input w)) (file_size l)] else []).
Proof.
  unfold report_progress, progress_due, ftell.
  case_decide; simpl; rewrite ?app_nil_r; auto.
Qed.

End Progress.

(** ** Preservation *)

Section Step.
Context {F : Type} `{SeekableFile F}.

Lemma dispatch_simulates cfg inp pos b (f : F) (w : io F) l ps :
  inp !! pos = Some b -> cursor f = S pos -> contents f = inp ->
  state_matches inp pos l ps ->
  exists l' w', dispatch cfg b l (set_input f w) = Some (l', w') /\
    dispatch_post cfg inp pos l (set_input f w) (pstep ps b).1 (pstep ps b).2 l' w'.
Proof.
  intros Hb Hcur Hcon Hm. pose proof Hm as Hm'. unfold state_matches in Hm'.
  destruct (state l) eqn:Hs, ps as [|h|h s]; try contradiction.
  - by apply dispatch_idle.
  - by apply dispatch_header.
  - by apply dispatch_sequence.
Qed.

(** What one step does, from a state of the invariant: [fread] read the
    byte [b] at the cursor, [dispatch] did what [dispatch_post] says for
    the scanner's step on [b], and [report_progress] ran last. *)
Lemma step_inversion cfg (w0 : io F) l w l' w' :
  inv cfg w0 (l, w) -> step cfg (l, w) (l', w') ->
  exists b f w1,
    contents (file_input w0) !! cursor (file_input w) = Some b /\
    dispatch_post cfg (contents (file_input w0)) (cursor (file_input w))
      (count_line b l) (set_input f w)
      (pstep (pscan PIdle (take (cursor (file_input w)) (contents (file_input w0)))).1 b).1
      (pstep (pscan PIdle (take (cursor (file_input w)) (contents (file_input w0)))).1 b).2
      l' w1 /\
    w' = report_progress cfg l' w1.
Proof.
  intros Hinv Hstep. inversion Hstep as [? ? b f ? ? Hread Hiter]; subst.
  destruct (fread_inv _ _ _ Hread) as (Hb & Hcon & Hcur).
  pose proof (inv_contents _ _ _ Hinv) as Hc; simpl in Hc. rewrite Hc in Hb, Hcon.
  destruct (dispatch_simulates cfg _ _ b f w (count_line b l)
              (pscan PIdle (take (cursor (file_input w)) (contents (file_input w0)))).1
              Hb Hcur Hcon) as (l1 & w1 & Hd & Hpost).
  { apply count_line_state_matches, (inv_state _ _ _ Hinv). }
  unfold loop_iteration in Hiter. rewrite Hd in Hiter. injection Hiter as <- <-.
  eauto 10.
Qed.

(** One iteration moves the cursor exactly one byte forward, even when it
    has sought back to a record's ['>'] and copied the record. *)
Lemma step_cursor cfg (w0 : io F) s s' :
  inv cfg w0 s -> step cfg s s' -> cursor (file_input s'.2) = S (cursor (file_input s.2)).
Proof.
  destruct s as [l w], s' as [l' w']. intros Hinv Hstep.
  destruct (step_inversion cfg w0 l w l' w' Hinv Hstep) as (b & f & w1 & _ & Hpost & ->).
  destruct (report_progress_io cfg l' w1) as (Ri & _ & _). simpl. rewrite Ri.
  apply Hpost.
Qed.

(** One iteration preserves the invariant. *)
Lemma step_preserves_inv cfg (w0 : io F) s s' :
  inv cfg w0 s -> step cfg s s' -> inv cfg w0 s'.
Proof.
  destruct s as [l w], s' as [l' w']. intros Hinv Hstep.
  destruct (step_inversion cfg w0 l w l' w' Hinv Hstep) as (b & f & w1 & Hb & Hpost & ->).
  destruct Hinv as [Hc Hp Hsz Hst Hout Hk Hbe Hab Hln Hso]; simpl in *.
  destruct Hpost as (Hc1 & Hn1 & Hm1 & Ho1 & Hs1 & Hk1 & Hb1 & Ha1 & Hf1 & Hl1).
  destruct (report_progress_io cfg l' w1) as (Ri & Ro & Rs).
  destruct (count_line_fields b l) as (Ck & Cb & Ca & Cf & Cl).
  apply lookup_lt_Some in Hb as Hlt. pose proof (take_S_r _ _ _ Hb) as Htake.
  split; simpl; rewrite ?Ri, ?Ro, ?Rs, ?Hc1, ?Hn1; try lia; rewrite ?Htake;
    unfold records in *; rewrite ?pscan_snoc; cbn [fst snd]; autorewrite with fasta_rw; try done.
  - rewrite Ho1. simpl. rewrite Hout. by rewrite app_assoc.
  - rewrite Hk1, Ck, Hk. lia.
  - rewrite Hb1, Cb, Hbe. lia.
  - rewrite Ha1, Ca, Hab. lia.
  - rewrite Hl1, Cl, Hln. case_decide; simpl; lia.
  - rewrite Hs1. simpl. rewrite Hso, progress_lines_S, Hf1, Cf, Hsz, app_assoc. done.
Qed.

Lemma start_inv cfg (w0 : io F) : inv cfg w0 (start w0).
Proof.
  unfold start, set_input.
  constructor; simpl; autorewrite with fasta_rw; rewrite ?app_nil_r; try done; lia.
Qed.

Lemma reachable_inv cfg (w0 : io F) s : reachable cfg w0 s -> inv cfg w0 s.
Proof.
  unfold reachable. intros Hr. remember (start w0) as s0 eqn:E.
  assert (Hi : inv cfg w0 s0) by (subst; apply start_inv). clear E.
  induction Hr as [|x y z Hxy _ IH]; [done|]. apply IH. by apply (step_preserves_inv cfg w0 x y).
Qed.

(** C2. The engine simulates the reference scanner: from a state that
    stands for [pscan] on the bytes consumed so far, one iteration of the
    loop reaches a state that stands for [pscan] on one byte more.  The
    output, counters, line count and progress lines grow accordingly, and
    the cursor ends exactly one byte further on. *)
Theorem step_inv cfg (w0 : io F) s s' :
  inv cfg w0 s -> step cfg s s' ->
  inv cfg w0 s' /\ cursor (file_input s'.2) = S (cursor (file_input s.2)).
Proof.
  intros Hi Hs. split; [by apply (step_preserves_inv cfg w0 s)|by apply (step_cursor cfg w0)].
Qed.

End Step.

(** [inv] on a concrete state, by evaluation. *)
Ltac inv_by_computation := constructor; vm_compute; repeat split; try reflexivity; lia.

Lemma step_inv_witness :
  inv ex_cfg ex_io (iterate 4 ex_cfg (start ex_io)) /\
  step ex_cfg (iterate 4 ex_cfg (start ex_io)) (iterate 5 ex_cfg (start ex_io)) /\
  inv ex_cfg ex_io (iterate 5 ex_cfg (start ex_io)) /\
  cursor (file_input (iterate 5 ex_cfg (start ex_io)).2) =
    S (cursor (file_input (iterate 4 ex_cfg (start ex_io)).2)).
Proof.
  assert (Hi : inv ex_cfg ex_io (iterate 4 ex_cfg (start ex_io))) by inv_by_computation.
  assert (Hs : step ex_cfg (iterate 4 ex_cfg (start ex_io)) (iterate 5 ex_cfg (start ex_io)))
    by (vm_compute; econstructor; reflexivity).
  split; [exact Hi|]. split; [exact Hs|]. exact (step_inv ex_cfg ex_io _ _ Hi Hs).
Defined.
