(* ===== verification/EngineCorrect.v ===== *)
(** * EngineCorrect: what [read_write_entries] does, end to end

    From the invariant of [EngineInv]: the engine never gets stuck (an
    iteration always terminates, the copy-back included), the loop runs
    to the end of the input with the fuel [read_write_entries] gives it,
    and the output file is then [filter_fasta] of the input.  The counters
    count the records by verdict, stdout holds the progress lines and the
    three totals, and the [uint64_t] locals stay within the file size.
    The reachable-state theorems hold of every state of the step relation
    [step] from [start]. *)

From S2P Require Import Prelude Stdio Fasta Engine EngineInv.

Section Correct.
Context {F : Type} `{SeekableFile F}.

(** Only the cursor and the contents of the input file matter to [inv]. *)
Lemma inv_set_input cfg (w0 : io F) l w f :
  contents f = contents (file_input w) -> cursor f = cursor (file_input w) ->
  inv cfg w0 (l, w) -> inv cfg w0 (l, set_input f w).
Proof.
  intros Hc Hp [? ? ? ? ? ? ? ? ? ?]. unfold set_input.
  constructor; simpl in *; rewrite ?Hc, ?Hp; done.
Qed.

(** An iteration from a state of the invariant always terminates. *)
Lemma iteration_exists cfg (w0 : io F) l w b f :
  inv cfg w0 (l, w) -> fread (file_input w) = (Some b, f) ->
  exists s', loop_iteration cfg b l (set_input f w) = Some s'.
Proof.
  intros Hinv Hread. destruct (fread_inv _ _ _ Hread) as (Hb & Hcon & Hcur).
  pose proof (inv_contents _ _ _ Hinv) as Hc; simpl in Hc. rewrite Hc in Hb, Hcon.
  destruct (dispatch_simulates cfg _ _ b f w (count_line b l)
    (pscan PIdle (take (cursor (file_input w)) (contents (file_input w0)))).1
    Hb Hcur Hcon) as (l1 & w1 & Hd & _).
  { apply count_line_state_matches, (inv_state _ _ _ Hinv). }
  unfold loop_iteration. rewrite Hd. eauto.
Qed.

(** With fuel beyond the bytes left, [main_loop] reaches the end of the
    input, through states of the invariant. *)
Lemma main_loop_runs cfg (w0 : io F) n l w :
  inv cfg w0 (l, w) -> length (contents (file_input w0)) - cursor (file_input w) < n ->
  exists l' w', main_loop n cfg l w = Some (l', w') /\ inv cfg w0 (l', w') /\
    cursor (file_input w') = length (contents (file_input w0)).
Proof.
  revert l w. induction n as [|n IH]; intros l w Hinv Hn; [lia|]. simpl.
  destruct (fread (file_input w)) as [[b|] f] eqn:Hread.
  - destruct (iteration_exists cfg w0 l w b f Hinv Hread) as [[l1 w1] Hit].
    rewrite Hit.
    assert (Hst : step cfg (l, w) (l1, w1)) by (econstructor; eauto).
    pose proof (step_preserves_inv cfg w0 _ _ Hinv Hst) as Hinv1.
    destruct (fread_inv _ _ _ Hread) as (Hb & _ & _).
    pose proof (inv_contents _ _ _ Hinv) as Hc; simpl in Hc. rewrite Hc in Hb.
    apply lookup_lt_Some in Hb.
    apply IH; [done|]. apply (step_cursor cfg w0 _ _ Hinv) in Hst. simpl in Hst. lia.
  - destruct (fread_inv _ _ _ Hread) as (Hb & Hcon & Hcur).
    exists l, (set_input f w). split; [done|]. split; [by apply inv_set_input|].
    simpl. rewrite Hcur. pose proof (inv_contents _ _ _ Hinv) as Hc; simpl in Hc.
    rewrite Hc in Hb. apply lookup_ge_None in Hb. pose proof (inv_pos _ _ _ Hinv). simpl in *. lia.
Qed.

Lemma start_cursor (w0 : io F) : cursor (file_input (start w0).2) = 0.
Proof. unfold start, set_input. simpl. by autorewrite with fasta_rw. Qed.

(** The end of the loop: the invariant with the whole input consumed. *)
Lemma main_loop_from_start cfg (w0 : io F) :
  exists l w, main_loop (S (file_size (start w0).1)) cfg (start w0).1 (start w0).2 = Some (l, w)
    /\ inv cfg w0 (l, w) /\ cursor (file_input w) = length (contents (file_input w0)).
Proof.
  pose proof (start_inv cfg w0) as Hinv. destruct (start w0) as [l0 w1] eqn:E.
  apply main_loop_runs; [done|]. rewrite (inv_size _ _ _ Hinv). simpl. lia.
Qed.

(** The result of a run, as the invariant gives it at the end of the
    input. *)
Lemma read_write_entries_result cfg (w0 : io F) :
  let inp := contents (file_input w0) in
  exists l w, read_write_entries cfg w0 = Some (l, w) /\
    file_output w = file_output w0 ++ filter_fasta (range_of cfg) inp /\
    total_of_sequences_kept l = count_records (keep (range_of cfg)) inp /\
    total_of_sequences_discarded_bellow_minimum l = count_records (too_short (range_of cfg)) inp /\
    total_of_sequences_discarded_above_maximum l = count_records (too_long (range_of cfg)) inp /\
    stdout w = stdout w0 ++ progress_lines cfg (length inp) (length inp) ++ final_lines cfg l.
Proof.
  intros inp. unfold read_write_entries.
  destruct (main_loop_from_start cfg w0) as (l & w & Hrun & Hinv & Hcur).
  destruct (start w0) as [l0 w1]. cbn [fst snd] in Hrun. rewrite Hrun.
  destruct Hinv as [_ _ _ _ Hout Hk Hbe Hab _ Hso]. simpl in *.
  rewrite Hcur, take_ge in Hout, Hk, Hbe, Hab by done. rewrite Hcur in Hso.
  eexists _, _. split; [reflexivity|]. simpl.
  rewrite Hso, <- app_assoc. auto.
Qed.

(** C1. [read_write_entries] returns, on every input and configuration.
    It then has appended to the output exactly the kept records of the
    input, in order and byte for byte ([filter_fasta]).  Its counters
    count the records by verdict, and stdout holds the progress lines and
    the three totals. *)
Theorem read_write_entries_refines cfg (w0 : io F) :
  let inp := contents (file_input w0) in
  exists l w, read_write_entries cfg w0 = Some (l, w) /\
    file_output w = file_output w0 ++ filter_fasta (range_of cfg) inp /\
    total_of_sequences_kept l = count_records (keep (range_of cfg)) inp /\
    total_of_sequences_discarded_bellow_minimum l = count_records (too_short (range_of cfg)) inp /\
    total_of_sequences_discarded_above_maximum l = count_records (too_long (range_of cfg)) inp /\
    stdout w = stdout w0 ++ progress_lines cfg (length inp) (length inp) ++ final_lines cfg l.
Proof. apply read_write_entries_result. Qed.

(** ** Reachable states *)

(** C3. In every reachable state an iteration moves the cursor exactly
    one byte forward, even when it seeks back to the record's ['>'] and
    copies the record: the copy-back is invisible to the scan. *)
Theorem reachable_step_cursor cfg (w0 : io F) s s' :
  reachable cfg w0 s -> step cfg s s' -> cursor (file_input s'.2) = S (cursor (file_input s.2)).
Proof. intros Hr Hs. apply (step_cursor cfg w0); [by apply reachable_inv|done]. Qed.

(** C6. In every reachable state the three counters add up to the number
    of records whose sequence line has been finalised (spec §3). *)
Theorem reachable_counters_total cfg (w0 : io F) l w :
  reachable cfg w0 (l, w) ->
  total_of_sequences_kept l + total_of_sequences_discarded_bellow_minimum l +
  total_of_sequences_discarded_above_maximum l =
    length (records (take (cursor (file_input w)) (contents (file_input w0)))).
Proof.
  intros Hr%reachable_inv. destruct Hr as [_ _ _ _ _ Hk Hb Ha _ _]; simpl in *.
  rewrite Hk, Hb, Ha. apply counts_partition.
Qed.

(** C12. The [uint64_t] locals stay within the size of the file in every
    reachable state: the positions, the copy target
    [sequence_position + sequence_size] and the cursor are at most the
    size, three times the number of records is at most the size, and
    [current_line] at most one more.  C's wrap-around at 2^64 therefore
    never fires on a file of fewer than 2^64 - 1 bytes. *)
Theorem reachable_uint64_bounds cfg (w0 : io F) l w :
  reachable cfg w0 (l, w) ->
  let n := length (contents (file_input w0)) in
  header_position l <= n /\ sequence_position l + sequence_size l <= n /\
  cursor (file_input w) <= n /\ file_size l = n /\
  3 * (total_of_sequences_kept l + total_of_sequences_discarded_bellow_minimum l +
       total_of_sequences_discarded_above_maximum l) <= n /\
  current_line l <= S n.
Proof.
  intros Hr%reachable_inv.
  destruct Hr as [_ Hp Hsz Hst _ Hk Hb Ha Hln _]; simpl in *.
  pose proof (counts_partition cfg (records (take (cursor (file_input w))
                                               (contents (file_input w0))))) as Htot.
  assert (Hlen : length (take (cursor (file_input w)) (contents (file_input w0)))
                 = cursor (file_input w)) by (rewrite length_take; lia).
  pose proof (records_length (take (cursor (file_input w)) (contents (file_input w0)))).
  assert (count_byte NL (take (cursor (file_input w)) (contents (file_input w0)))
          <= cursor (file_input w)) by (unfold count_byte; rewrite <- Hlen at 2;
                                        apply length_filter).
  unfold state_matches in Hst.
  destruct (state l), (pscan _ _).1; try contradiction; repeat split; lia.
Qed.

(** C13. Outside [STATE_NONE], [header_position] is the position of the
    ['>'] that opened the current record. *)
Theorem reachable_header_position_at_GT cfg (w0 : io F) l w :
  reachable cfg w0 (l, w) -> state l <> STATE_NONE ->
  contents (file_input w0) !! header_position l = Some GT.
Proof.
  intros Hr%reachable_inv Hs. destruct Hr as [_ _ _ Hst _ _ _ _ _ _]; simpl in *.
  unfold state_matches in Hst.
  destruct (state l), (pscan _ _).1; try contradiction; try done;
    destruct_and!; by eapply window_head.
Qed.

(** C14. [current_line] is one more than the newlines read so far: the
    copy-back, which re-reads a record, does not count its lines twice. *)
Theorem reachable_current_line cfg (w0 : io F) l w :
  reachable cfg w0 (l, w) ->
  current_line l = 1 + count_byte NL (take (cursor (file_input w)) (contents (file_input w0))).
Proof. intros Hr%reachable_inv. apply Hr. Qed.

(** C15. The loop never blocks: a reachable state before the end of the
    input takes a step (the copy-back terminates), and at the end of the
    input [fread] fails and the loop exits. *)
Theorem reachable_step_or_exit cfg (w0 : io F) s :
  reachable cfg w0 s ->
  (cursor (file_input s.2) < length (contents (file_input w0)) /\ exists s', step cfg s s') \/
  (cursor (file_input s.2) = length (contents (file_input w0)) /\ loop_exits s).
Proof.
  intros Hr%reachable_inv. destruct s as [l w].
  pose proof (inv_contents _ _ _ Hr) as Hc. pose proof (inv_pos _ _ _ Hr) as Hp.
  simpl in *. unfold loop_exits. simpl.
  destruct (fread (file_input w)) as [[b|] f] eqn:Hread;
    destruct (fread_inv _ _ _ Hread) as (Hb & _ & _); rewrite Hc in Hb.
  - left. split; [by apply lookup_lt_Some in Hb|].
    destruct (iteration_exists cfg w0 l w b f Hr Hread) as [[l' w'] Hit].
    exists (l', w'). by econstructor.
  - right. apply lookup_ge_None in Hb. split; [lia|done].
Qed.

End Correct.

(** ** Witnesses, on the run of [ex_cfg] over [">A\nC\n"] *)

Lemma reachable_step_cursor_witness :
  reachable ex_cfg ex_io (ex_state 4) /\ step ex_cfg (ex_state 4) (ex_state 5) /\
  cursor (file_input (ex_state 5).2) = S (cursor (file_input (ex_state 4).2)).
Proof.
  assert (Hr : reachable ex_cfg ex_io (ex_state 4)) by reach 4.
  assert (Hs : step ex_cfg (ex_state 4) (ex_state 5)) by (vm_compute; econstructor; reflexivity).
  split; [exact Hr|]. split; [exact Hs|]. exact (reachable_step_cursor ex_cfg ex_io _ _ Hr Hs).
Defined.

Lemma reachable_counters_total_witness :
  reachable ex_cfg ex_io ((ex_state 5).1, (ex_state 5).2) /\
  total_of_sequences_kept (ex_state 5).1 +
  total_of_sequences_discarded_bellow_minimum (ex_state 5).1 +
  total_of_sequences_discarded_above_maximum (ex_state 5).1 =
    length (records (take (cursor (file_input (ex_state 5).2)) (contents (file_input ex_io)))).
Proof.
  assert (Hr : reachable ex_cfg ex_io ((ex_state 5).1, (ex_state 5).2)) by reach 5.
  split; [exact Hr|]. exact (reachable_counters_total ex_cfg ex_io _ _ Hr).
Defined.

Lemma reachable_uint64_bounds_witness :
  reachable ex_cfg ex_io ((ex_state 4).1, (ex_state 4).2) /\
  let n := length (contents (file_input ex_io)) in
  header_position (ex_state 4).1 <= n /\
  sequence_position (ex_state 4).1 + sequence_size (ex_state 4).1 <= n /\
  cursor (file_input (ex_state 4).2) <= n /\ file_size (ex_state 4).1 = n /\
  3 * (total_of_sequences_kept (ex_state 4).1 +
       total_of_sequences_discarded_bellow_minimum (ex_state 4).1 +
       total_of_sequences_discarded_above_maximum (ex_state 4).1) <= n /\
  current_line (ex_state 4).1 <= S n.
Proof.
  assert (Hr : reachable ex_cfg ex_io ((ex_state 4).1, (ex_state 4).2)) by reach 4.
  split; [exact Hr|]. exact (reachable_uint64_bounds ex_cfg ex_io _ _ Hr).
Defined.

Lemma reachable_header_position_at_GT_witness :
  reachable ex_cfg ex_io ((ex_state 4).1, (ex_state 4).2) /\
  state (ex_state 4).1 <> STATE_NONE /\
  contents (file_input ex_io) !! header_position (ex_state 4).1 = Some GT.
Proof.
  assert (Hr : reachable ex_cfg ex_io ((ex_state 4).1, (ex_state 4).2)) by reach 4.
  assert (Hs : state (ex_state 4).1 <> STATE_NONE) by (vm_compute; discriminate).
  split; [exact Hr|]. split; [exact Hs|].
  exact (reachable_header_position_at_GT ex_cfg ex_io _ _ Hr Hs).
Defined.

Lemma reachable_current_line_witness :
  reachable ex_cfg ex_io ((ex_state 5).1, (ex_state 5).2) /\
  current_line (ex_state 5).1 =
    1 + count_byte NL (take (cursor (file_input (ex_state 5).2)) (contents (file_input ex_io))).
Proof.
  assert (Hr : reachable ex_cfg ex_io ((ex_state 5).1, (ex_state 5).2)) by reach 5.
  split; [exact Hr|]. exact (reachable_current_line ex_cfg ex_io _ _ Hr).
Defined.

Lemma reachable_step_or_exit_witness :
  reachable ex_cfg ex_io (ex_state 5) /\
  ((cursor (file_input (ex_state 5).2) < length (contents (file_input ex_io)) /\
    exists s', step ex_cfg (ex_state 5) s') \/
   (cursor (file_input (ex_state 5).2) = length (contents (file_input ex_io)) /\
    loop_exits (ex_state 5))).
Proof.
  assert (Hr : reachable ex_cfg ex_io (ex_state 5)) by reach 5.
  split; [exact Hr|]. exact (reachable_step_or_exit ex_cfg ex_io _ Hr).
Defined.
