(* ===== verification/Behaviour.v ===== *)
(** * Behaviour: the consequences the spec lists (§4.1 and §8)

    This file derives them from the refinement of [EngineCorrect].  The
    classification of lines 93-97 is the spec's three-way rule with
    inclusive bounds, and [maximum = 0] means no upper bound.  Filtering the
    output again changes nothing.  A last record without its final newline
    is neither counted nor written. *)

From S2P Require Import Prelude Stdio Fasta Engine EngineInv EngineCorrect.

(** ** Fixtures *)

(** The run of [ex_cfg] over [">A\nC\n"]. *)
Definition ex_result : locals * io mem_file :=
  match read_write_entries ex_cfg ex_io with Some r => r | None => (initial_locals, ex_io) end.

(** The same input with an unterminated record [">B\nG"] appended. *)
Definition ex_dangling : io mem_file :=
  mk_io (MemFile (ex_input ++ GT :: ["B"%byte] ++ NL :: ["G"%byte]) 0) [] [].

(** ** The classification *)

(** C9. [classify] is the spec's rule: below the minimum first, then above
    a maximum that is not 0, else kept. *)
Theorem classify_correct cfg n :
  (classify cfg n = Below <-> too_short (range_of cfg) n) /\
  (classify cfg n = Above <-> too_long (range_of cfg) n) /\
  (classify cfg n = Kept <-> keep (range_of cfg) n).
Proof.
  unfold classify, too_short, too_long, keep, range_of; simpl.
  repeat (case_decide || case_bool_decide); simpl; repeat split; intros; try done; lia.
Qed.

(** C10. Both bounds are inclusive: a record as long as the minimum, or as
    long as a maximum that is not below the minimum, is kept. *)
Theorem classify_bounds_inclusive cfg :
  sequence_length_minimum cfg <= sequence_length_maximum cfg ->
  classify cfg (sequence_length_minimum cfg) = Kept /\
  classify cfg (sequence_length_maximum cfg) = Kept.
Proof.
  intros Hle. unfold classify.
  split; repeat (case_decide || case_bool_decide); simpl in *; try done; lia.
Qed.

(** C11. With [maximum = 0] no record is discarded from above, whatever
    its length. *)
Theorem classify_unbounded cfg n :
  sequence_length_maximum cfg = 0 -> classify cfg n <> Above.
Proof.
  intros H0. unfold classify. rewrite H0.
  repeat (case_decide || case_bool_decide); simpl in *; try done; lia.
Qed.

Lemma classify_bounds_inclusive_witness :
  sequence_length_minimum (mk_config 2 5 0) <= sequence_length_maximum (mk_config 2 5 0) /\
  classify (mk_config 2 5 0) 2 = Kept /\ classify (mk_config 2 5 0) 5 = Kept.
Proof.
  assert (H : sequence_length_minimum (mk_config 2 5 0) <= sequence_length_maximum (mk_config 2 5 0))
    by (simpl; lia).
  split; [exact H|]. exact (classify_bounds_inclusive (mk_config 2 5 0) H).
Defined.

Lemma classify_unbounded_witness :
  sequence_length_maximum (mk_config 1 0 0) = 0 /\ classify (mk_config 1 0 0) 1000 <> Above.
Proof.
  assert (H : sequence_length_maximum (mk_config 1 0 0) = 0) by reflexivity.
  split; [exact H|]. exact (classify_unbounded (mk_config 1 0 0) 1000 H).
Defined.

Section Runs.
Context {F : Type} `{SeekableFile F}.

(** ** Idempotence (spec §8) *)

(** C7. Filtering the output of a run again, with the same bounds, writes
    the same bytes: every record is kept again and none is discarded. *)
Theorem read_write_entries_idempotent cfg (w0 w1 : io F) l w :
  read_write_entries cfg w0 = Some (l, w) -> file_output w0 = [] ->
  contents (file_input w1) = file_output w -> file_output w1 = [] ->
  exists l' w', read_write_entries cfg w1 = Some (l', w') /\
    file_output w' = file_output w /\
    total_of_sequences_kept l' = total_of_sequences_kept l /\
    total_of_sequences_discarded_bellow_minimum l' = 0 /\
    total_of_sequences_discarded_above_maximum l' = 0.
Proof.
  intros Hrun Hout0 Hin1 Hout1.
  destruct (read_write_entries_result cfg w0) as (l0 & x0 & Hrun0 & Ho0 & Hk0 & _).
  rewrite Hrun in Hrun0. injection Hrun0 as <- <-.
  destruct (read_write_entries_result cfg w1) as (l1 & x1 & Hrun1 & Ho1 & Hk1 & Hb1 & Ha1 & _).
  exists l1, x1. rewrite Hin1, Ho0, Hout0, Hout1 in *. simpl in *.
  unfold count_records in *. rewrite records_filter_fasta in Hk1, Hb1, Ha1.
  rewrite list_filter_filter_l in Hk1 by done.
  repeat split.
  - done.
  - by rewrite Ho1, filter_fasta_idempotent.
  - by rewrite Hk1, Hk0.
  - rewrite Hb1, filter_none; [done|]. intros r [? ?]%list_elem_of_filter.
    unfold keep, too_short in *. lia.
  - rewrite Ha1, filter_none; [done|]. intros r [? ?]%list_elem_of_filter.
    unfold keep, too_long in *. lia.
Qed.

(** ** A last record without its final newline (spec §4.1, §9) *)

(** C8. Appending a record whose sequence line lacks its final newline to
    an input that ends outside any record changes neither the output nor
    any counter: the record is silently dropped. *)
Theorem read_write_entries_drops_unterminated cfg (w0 w1 : io F) h s :
  (pscan PIdle (contents (file_input w0))).1 = PIdle -> NL ∉ h -> NL ∉ s ->
  contents (file_input w1) = contents (file_input w0) ++ GT :: h ++ NL :: s ->
  file_output w1 = file_output w0 ->
  exists l0 x0 l1 x1,
    read_write_entries cfg w0 = Some (l0, x0) /\ read_write_entries cfg w1 = Some (l1, x1) /\
    file_output x1 = file_output x0 /\
    total_of_sequences_kept l1 = total_of_sequences_kept l0 /\
    total_of_sequences_discarded_bellow_minimum l1 =
      total_of_sequences_discarded_bellow_minimum l0 /\
    total_of_sequences_discarded_above_maximum l1 =
      total_of_sequences_discarded_above_maximum l0.
Proof.
  intros Hidle Hh Hs Hin Hout.
  destruct (read_write_entries_result cfg w0) as (l0 & x0 & R0 & O0 & K0 & B0 & A0 & _).
  destruct (read_write_entries_result cfg w1) as (l1 & x1 & R1 & O1 & K1 & B1 & A1 & _).
  exists l0, x0, l1, x1. rewrite Hin, Hout in *.
  unfold filter_fasta, count_records in *. rewrite records_dangling in O1, K1, B1, A1 by done.
  repeat split; congruence.
Qed.

End Runs.

Lemma read_write_entries_idempotent_witness :
  let w1 := mk_io (MemFile (file_output ex_result.2) 0) [] [] in
  read_write_entries ex_cfg ex_io = Some (ex_result.1, ex_result.2) /\
  file_output ex_io = [] /\ contents (file_input w1) = file_output ex_result.2 /\
  file_output w1 = [] /\
  exists l' w', read_write_entries ex_cfg w1 = Some (l', w') /\
    file_output w' = file_output ex_result.2 /\
    total_of_sequences_kept l' = total_of_sequences_kept ex_result.1 /\
    total_of_sequences_discarded_bellow_minimum l' = 0 /\
    total_of_sequences_discarded_above_maximum l' = 0.
Proof.
  intros w1.
  assert (Hrun : read_write_entries ex_cfg ex_io = Some (ex_result.1, ex_result.2))
    by (vm_compute; reflexivity).
  assert (Ho : file_output ex_io = []) by reflexivity.
  assert (Hi : contents (file_input w1) = file_output ex_result.2) by reflexivity.
  assert (Ho1 : file_output w1 = []) by reflexivity.
  split; [exact Hrun|]. split; [exact Ho|]. split; [exact Hi|]. split; [exact Ho1|].
  exact (read_write_entries_idempotent ex_cfg ex_io w1 _ _ Hrun Ho Hi Ho1).
Defined.

Lemma read_write_entries_drops_unterminated_witness :
  (pscan PIdle (contents (file_input ex_io))).1 = PIdle /\ (NL ∉ ["B"%byte]) /\
  (NL ∉ ["G"%byte]) /\
  contents (file_input ex_dangling) =
    contents (file_input ex_io) ++ GT :: ["B"%byte] ++ NL :: ["G"%byte] /\
  file_output ex_dangling = file_output ex_io /\
  exists l0 x0 l1 x1,
    read_write_entries ex_cfg ex_io = Some (l0, x0) /\
    read_write_entries ex_cfg ex_dangling = Some (l1, x1) /\
    file_output x1 = file_output x0 /\
    total_of_sequences_kept l1 = total_of_sequences_kept l0 /\
    total_of_sequences_discarded_bellow_minimum l1 =
      total_of_sequences_discarded_bellow_minimum l0 /\
    total_of_sequences_discarded_above_maximum l1 =
      total_of_sequences_discarded_above_maximum l0.
Proof.
  assert (Hidle : (pscan PIdle (contents (file_input ex_io))).1 = PIdle) by reflexivity.
  assert (Hh : NL ∉ ["B"%byte]) by (intros ?%list_elem_of_singleton; discriminate).
  assert (Hs : NL ∉ ["G"%byte]) by (intros ?%list_elem_of_singleton; discriminate).
  assert (Hin : contents (file_input ex_dangling) =
    contents (file_input ex_io) ++ GT :: ["B"%byte] ++ NL :: ["G"%byte]) by reflexivity.
  assert (Hout : file_output ex_dangling = file_output ex_io) by reflexivity.
  do 5 (split; [assumption|]).
  exact (read_write_entries_drops_unterminated ex_cfg ex_io ex_dangling _ _ Hidle Hh Hs Hin Hout).
Defined.

