(* ===== verification/Main.v ===== *)
(** * Main: [main] and [print_help] (src/main.c:123-202)

    [main] allocates and zeroes the [struct context] (src/main.c:33-42).
    With exactly five arguments ([argc == 6]) it copies the two paths with
    [strncat], which keeps at most [PATH_LENGTH_MAX - 1] bytes, and reads
    the two bounds and the progress flag with [atoi].  The results are
    stored in [uint32_t] and [uint8_t] fields, so they are reduced modulo
    2^32 and 2^8.  Otherwise it prints the help text.  It then prints the
    four settings, opens the input for reading and the output for writing,
    runs [read_write_entries] and maps the outcome to the exit status.

    The host is a record [host]: whether [malloc] succeeds, the file store
    as a [gmap] from path to bytes, and the paths that cannot be opened for
    writing.  [fopen(path, "r")] opens a file of the store;
    [fopen(path, "w")] truncates (or creates) the file of that path in the
    store.  Both handles name files of the same store, so when the two
    paths are the same the input is truncated before the engine reads it.
    The engine's writes go to the output path.  They are committed to the
    store when the engine returns; no read can see them earlier except
    through the same path, and then the input is empty and nothing is
    written.  [atoi] is the C library's, for the values it defines (an
    optional sign after leading white space, then decimal digits); outside
    the range of [int] its behaviour is undefined and not modelled. *)

From S2P Require Import Prelude Stdio Reporter Fasta Engine EngineInv EngineCorrect.
From stdpp Require Import gmap strings.
From Stdlib Require String Ascii.
Import (notations) Stdlib.Strings.String Stdlib.Strings.Ascii.

Definition APPLICATION_VERSION_YYYY : nat := 2019.
Definition APPLICATION_VERSION_MM : nat := 1.
Definition APPLICATION_VERSION_DD : nat := 24.
Definition APPLICATION_VERSION_MICRO : nat := 0.
Definition PATH_LENGTH_MAX : nat := 4096.

(** ** [print_help], lines 123-142 *)

Definition print_help : list line :=
  map LText [
    String.concat "" ["flfasta (Filter by Length FASTA) version ";
      format_0u 4 APPLICATION_VERSION_YYYY; "."; format_0u 2 APPLICATION_VERSION_MM; ".";
      format_0u 2 APPLICATION_VERSION_DD; "."; format_u APPLICATION_VERSION_MICRO; "."];
    "Created by Felipe Ferreira da Silva.";
    "";
    "Usage:";
    "  sc [1] [2] [3] [4] [5]";
    "";
    "  1: Path to input file.";
    "  2: Path to output file.";
    "  3: Minimum length.";
    "  4: Maximum length (0 to ignore maximum length).";
    "  5: Show progress (0 for no, 1 for yes).";
    "";
    "File input must be in single-line FASTA format."]%string.

(** ** The C library functions [main] calls *)

(** [isspace] in the C locale: space, \t, \n, \v, \f, \r. *)
Definition isspace (c : Ascii.ascii) : bool :=
  match Ascii.nat_of_ascii c with 9 | 10 | 11 | 12 | 13 | 32 => true | _ => false end.

Definition digit_value (c : Ascii.ascii) : option Z :=
  let n := Ascii.nat_of_ascii c in
  if (48 <=? n) && (n <=? 57) then Some (Z.of_nat (n - 48)) else None.

Fixpoint atoi_digits (s : String.string) (acc : Z) : Z :=
  match s with
  | String.EmptyString => acc
  | String.String c s' =>
      match digit_value c with Some d => atoi_digits s' (10 * acc + d) | None => acc end
  end.

Fixpoint atoi (s : String.string) : Z :=
  match s with
  | String.EmptyString => 0
  | String.String c s' =>
      if isspace c then atoi s'
      else if Ascii.eqb c "-"%char then - atoi_digits s' 0
      else if Ascii.eqb c "+"%char then atoi_digits s' 0
      else atoi_digits s 0
  end.

(** [strncat(buffer, arg, PATH_LENGTH_MAX - 1)] on a zeroed buffer: the
    first [PATH_LENGTH_MAX - 1] bytes of [arg]. *)
Definition strncat_path (arg : String.string) : String.string :=
  String.substring 0 (PATH_LENGTH_MAX - 1) arg.

(** ** The context and the arguments *)

(** [struct context] without its two [FILE *], which [main] passes to the
    engine directly: the help flag (the field [print_help], renamed here
    because the function [print_help] has the same name), the two paths
    and the fields the engine reads. *)
Record context := mk_context {
  print_help_flag : nat;
  file_input_path : String.string;
  file_output_path : String.string;
  settings : config
}.

(** Lines 157-165, on the context that [memset] zeroed at line 155. *)
Definition parse_arguments (args : list String.string) : context :=
  match args with
  | [_; a1; a2; a3; a4; a5] =>
      mk_context 0 (strncat_path a1) (strncat_path a2)
        (mk_config (to_u32 (atoi a3)) (to_u32 (atoi a4)) (to_u8 (atoi a5)))
  | _ => mk_context 1 "" "" (mk_config 0 0 0)
  end.

(** ** The host *)

(** Whether [malloc] succeeds, the files by path, and the paths
    [fopen(path, "w")] cannot open (a missing directory, no permission). *)
Record host := mk_host {
  malloc_succeeds : bool;
  files : gmap String.string (list byte);
  unwritable : gset String.string
}.

Definition set_files (fs : gmap String.string (list byte)) (h : host) : host :=
  mk_host (malloc_succeeds h) fs (unwritable h).

(** [fopen(path, "r")]: a handle at position 0 on the file, or [NULL]. *)
Definition fopen_read (h : host) (p : String.string) : option mem_file :=
  (fun bytes => MemFile bytes 0) <$> files h !! p.

(** [fopen(path, "w")]: the file is truncated to zero length, or created. *)
Definition fopen_write (h : host) (p : String.string) : option host :=
  if decide (p ∈ unwritable h) then None else Some (set_files (<[p := []]> (files h)) h).

Inductive exit_status := EXIT_SUCCESS | EXIT_FAILURE.

(** What a run leaves: the exit status, the lines on stdout, and the
    host with its files. *)
Record outcome := mk_outcome {
  status : exit_status;
  printed : list line;
  final : host
}.

(** ** [main], lines 144-202 *)

(** The input handle reads the file as it is after both [fopen]s: when the
    two paths are equal, [fopen(path, "w")] has truncated it. *)
Definition main (args : list String.string) (h : host) : option outcome :=
  if negb (malloc_succeeds h) then Some (mk_outcome EXIT_FAILURE [] h)
  else
    let ctx := parse_arguments args in
    if decide (print_help_flag ctx = 1) then Some (mk_outcome EXIT_SUCCESS print_help h)
    else
      let banner := [LInput (file_input_path ctx); LOutput (file_output_path ctx);
                     LMinimum (sequence_length_minimum (settings ctx));
                     LMaximum (sequence_length_maximum (settings ctx))] in
      match fopen_read h (file_input_path ctx) with
      | None => Some (mk_outcome EXIT_FAILURE (banner ++ [LOpenInputFailed]) h)
      | Some _ =>
          match fopen_write h (file_output_path ctx) with
          | None => Some (mk_outcome EXIT_FAILURE (banner ++ [LOpenOutputFailed]) h)
          | Some h1 =>
              let input := MemFile (default [] (files h1 !! file_input_path ctx)) 0 in
              match read_write_entries (settings ctx) (mk_io input [] banner) with
              | Some (_, w) =>
                  Some (mk_outcome EXIT_SUCCESS (stdout w)
                          (set_files (<[file_output_path ctx := file_output w]> (files h1)) h1))
              | None => None
              end
          end
      end.

(** A host for the witnesses: "in.fa" holds [ex_input], and "/ro" cannot
    be opened for writing. *)
Definition ex_host : host :=
  mk_host true {[ "in.fa"%string := ex_input ]} {[ "/ro"%string ]}.

(** ** What [main] does *)

Lemma substring_0_length n s :
  String.length (String.substring 0 n s) = Nat.min n (String.length s).
Proof.
  revert n. induction s as [|c s IH]; intros [|n]; simpl; try done. by rewrite IH.
Qed.

Lemma parse_arguments_help args :
  length args <> 6 -> print_help_flag (parse_arguments args) = 1.
Proof.
  intros Hlen. destruct args as [|? [|? [|? [|? [|? [|? [|? ?]]]]]]]; simpl in *; lia.
Qed.

(** The run of [main] once both files are open, from the engine's result. *)
Lemma main_runs args h bytes :
  malloc_succeeds h = true -> print_help_flag (parse_arguments args) <> 1 ->
  is_Some (files h !! file_input_path (parse_arguments args)) ->
  file_output_path (parse_arguments args) ∉ unwritable h ->
  let ctx := parse_arguments args in
  let fs1 := <[file_output_path ctx := []]> (files h) in
  default [] (fs1 !! file_input_path ctx) = bytes ->
  exists o l, main args h = Some o /\ status o = EXIT_SUCCESS /\
    final o = set_files (<[file_output_path ctx := filter_fasta (range_of (settings ctx)) bytes]> fs1) h /\
    total_of_sequences_kept l = count_records (keep (range_of (settings ctx))) bytes /\
    total_of_sequences_discarded_bellow_minimum l =
      count_records (too_short (range_of (settings ctx))) bytes /\
    total_of_sequences_discarded_above_maximum l =
      count_records (too_long (range_of (settings ctx))) bytes /\
    printed o = [LInput (file_input_path ctx); LOutput (file_output_path ctx);
                 LMinimum (sequence_length_minimum (settings ctx));
                 LMaximum (sequence_length_maximum (settings ctx))] ++
                progress_lines (settings ctx) (length bytes) (length bytes) ++
                final_lines (settings ctx) l.
Proof.
  intros Hm Hh [b Hb] Hw ctx fs1 Hbytes. unfold main. rewrite Hm. simpl negb. cbv zeta.
  rewrite decide_False by done. unfold fopen_read. rewrite Hb. simpl fmap.
  unfold fopen_write. rewrite decide_False by done. cbn [files set_files].
  fold ctx fs1. rewrite Hbytes.
  match goal with |- context [read_write_entries ?c ?w0] =>
    destruct (read_write_entries_result c w0) as (l & w & Hrun & Hout & Hk & Hbe & Hab & Hso) end.
  rewrite Hrun. eexists _, l. split; [done|]. simpl in *. split; [done|].
  rewrite Hout. split; [done|]. repeat split; [done..|]. by rewrite Hso.
Qed.

(** C17. With any number of arguments other than five, [main] prints the
    help text and exits with success; it opens no file, changes no file
    and never runs the engine. *)
Theorem main_help args h :
  length args <> 6 -> malloc_succeeds h = true ->
  main args h = Some (mk_outcome EXIT_SUCCESS print_help h).
Proof.
  intros Hlen Hm. unfold main. rewrite Hm. simpl.
  by rewrite decide_True by (by apply parse_arguments_help).
Qed.

(** C16. [main] always returns, and it exits with failure exactly when
    [malloc] fails, or when the arguments are five and the input file does
    not exist or the output cannot be opened for writing (spec §6). *)
Theorem main_exit_status args h :
  exists o, main args h = Some o /\
    (status o = EXIT_FAILURE <->
       malloc_succeeds h = false \/
       (print_help_flag (parse_arguments args) <> 1 /\
        (files h !! file_input_path (parse_arguments args) = None \/
         file_output_path (parse_arguments args) ∈ unwritable h))).
Proof.
  destruct (malloc_succeeds h) eqn:Hm;
    [|unfold main; rewrite Hm; eexists; split; [done|]; simpl; tauto].
  destruct (decide (print_help_flag (parse_arguments args) = 1)) as [Hh|Hh].
  { unfold main. rewrite Hm, decide_True by done. eexists. split; [done|]. simpl.
    intuition congruence. }
  destruct (files h !! file_input_path (parse_arguments args)) as [b|] eqn:Hb.
  2: { unfold main. rewrite Hm, decide_False by done. unfold fopen_read. rewrite Hb.
       eexists. split; [done|]. simpl. intuition congruence. }
  destruct (decide (file_output_path (parse_arguments args) ∈ unwritable h)) as [Hw|Hw].
  { unfold main. rewrite Hm, decide_False by done. unfold fopen_read. rewrite Hb. simpl fmap.
    unfold fopen_write. rewrite decide_True by done.
    eexists. split; [done|]. simpl. intuition congruence. }
  destruct (main_runs args h _ Hm Hh (mk_is_Some _ _ Hb) Hw eq_refl)
    as (o & l & Hrun & Hst & _). exists o. split; [done|]. rewrite Hst. intuition congruence.
Qed.

(** C19. [main] changes no file but the one at the output path, and a
    run that exits with failure changes no file at all.  This depends on
    the order of lines 174-185: the input is opened, and its failure
    handled, before [fopen(path, "w")] truncates the output. *)
Theorem main_writes_only_output args h :
  exists o, main args h = Some o /\
    unwritable (final o) = unwritable h /\
    (forall q, q <> file_output_path (parse_arguments args) ->
       files (final o) !! q = files h !! q) /\
    (status o = EXIT_FAILURE -> files (final o) = files h).
Proof.
  destruct (malloc_succeeds h) eqn:Hm;
    [|unfold main; rewrite Hm; eexists; split_and!; done].
  destruct (decide (print_help_flag (parse_arguments args) = 1)) as [Hh|Hh].
  { unfold main. rewrite Hm, decide_True by done. eexists. split_and!; done. }
  destruct (files h !! file_input_path (parse_arguments args)) as [b|] eqn:Hb.
  2: { unfold main. rewrite Hm, decide_False by done. unfold fopen_read. rewrite Hb.
       eexists. split_and!; done. }
  destruct (decide (file_output_path (parse_arguments args) ∈ unwritable h)) as [Hw|Hw].
  { unfold main. rewrite Hm, decide_False by done. unfold fopen_read. rewrite Hb. simpl fmap.
    unfold fopen_write. rewrite decide_True by done. eexists. split_and!; done. }
  destruct (main_runs args h _ Hm Hh (mk_is_Some _ _ Hb) Hw eq_refl)
    as (o & l & Hrun & Hst & Hfs & _). exists o. rewrite Hfs, Hst. cbn [set_files files unwritable].
  split_and!; [done|done| |done]. intros q Hq. by rewrite !lookup_insert_ne by done.
Qed.

(** C18. With five arguments, an existing input file and an output path
    that is another path and can be opened for writing, [main] exits with
    success; the output file then holds exactly the records of the input
    whose length passes the bounds [atoi] read, and every other file,
    the input included, is unchanged. *)
Theorem main_filters p a1 a2 a3 a4 a5 h bytes :
  malloc_succeeds h = true ->
  files h !! strncat_path a1 = Some bytes -> strncat_path a2 ∉ unwritable h ->
  strncat_path a1 <> strncat_path a2 ->
  exists o, main [p; a1; a2; a3; a4; a5] h = Some o /\ status o = EXIT_SUCCESS /\
    files (final o) =
      <[strncat_path a2 := filter_fasta (mk_range (to_u32 (atoi a3)) (to_u32 (atoi a4))) bytes]>
        (files h).
Proof.
  intros Hm Hb Hw Hne.
  destruct (main_runs [p; a1; a2; a3; a4; a5] h bytes Hm ltac:(simpl; lia)
              (mk_is_Some _ _ Hb) Hw) as (o & l & Hrun & Hst & Hfs & _).
  { simpl. by rewrite lookup_insert_ne, Hb by done. }
  exists o. split; [done|]. split; [done|]. rewrite Hfs. simpl. by rewrite insert_insert_eq.
Qed.

(** C20. When the two paths name the same existing, writable file,
    [fopen(path, "w")] truncates the input before the engine reads it:
    [main] exits with success, the file is left empty whatever it held,
    no progress line is printed and the three totals are 0. *)
Theorem main_same_path_truncates p a1 a2 a3 a4 a5 h bytes :
  malloc_succeeds h = true ->
  files h !! strncat_path a1 = Some bytes -> strncat_path a2 ∉ unwritable h ->
  strncat_path a1 = strncat_path a2 ->
  exists o, main [p; a1; a2; a3; a4; a5] h = Some o /\ status o = EXIT_SUCCESS /\
    files (final o) = <[strncat_path a1 := []]> (files h) /\
    drop 4 (printed o) =
      (if decide (to_u8 (atoi a5) = 1) then [LNewline] else []) ++ [LKept 0; LBelow 0; LAbove 0].
Proof.
  intros Hm Hb Hw Heq.
  destruct (main_runs [p; a1; a2; a3; a4; a5] h [] Hm ltac:(simpl; lia)
              (mk_is_Some _ _ Hb) Hw) as (o & l & Hrun & Hst & Hfs & Hk & Hbe & Hab & Hpr).
  { simpl. by rewrite Heq, lookup_insert_eq. }
  exists o. split; [done|]. split; [done|]. rewrite Hfs, Hpr. simpl in *.
  rewrite Heq, insert_insert_eq. split; [done|].
  unfold final_lines. by rewrite Hk, Hbe, Hab.
Qed.

(** C21. What the user sees at the end of a successful run with the
    progress flag at 1 on a non-empty input of fewer than 2^53 bytes: the
    text printed ends with the progress line "100.00%", the line break,
    and the three totals, each the decimal count of the input's records
    by verdict. *)
Theorem main_console_tail p a1 a2 a3 a4 a5 h bytes :
  malloc_succeeds h = true ->
  files h !! strncat_path a1 = Some bytes -> strncat_path a2 ∉ unwritable h ->
  strncat_path a1 <> strncat_path a2 -> to_u8 (atoi a5) = 1 ->
  0 < length bytes -> (Z.of_nat (length bytes) < 2 ^ 53)%Z ->
  let rg := mk_range (to_u32 (atoi a3)) (to_u32 (atoi a4)) in
  exists o prefix, main [p; a1; a2; a3; a4; a5] h = Some o /\
    render (printed o) = String.append prefix (String.concat "" [
      CR; "Filtering by length at 100.00%."; LF;
      "Total of sequences kept: "; format_u (count_records (keep rg) bytes); "."; LF;
      "Total of sequences discarded bellow minimum: ";
        format_u (count_records (too_short rg) bytes); "."; LF;
      "Total of sequences discarded above maximum: ";
        format_u (count_records (too_long rg) bytes); "."; LF])%string.
Proof.
  intros Hm Hb Hw Hne Hp Hn Hlt rg.
  destruct (main_runs [p; a1; a2; a3; a4; a5] h bytes Hm ltac:(simpl; lia)
              (mk_is_Some _ _ Hb) Hw) as (o & l & Hrun & _ & _ & Hk & Hbe & Hab & Hpr).
  { simpl. by rewrite lookup_insert_ne, Hb by done. }
  exists o. cbn [parse_arguments settings file_input_path file_output_path] in *.
  destruct (length bytes) as [|m] eqn:En; [lia|].
  rewrite progress_lines_S, decide_True in Hpr by (split; [done|right; lia]).
  rewrite Hpr, <- app_assoc, app_assoc, render_app.
  eexists. split; [exact Hrun|]. f_equal.
  unfold final_lines. cbn [show_progress]. rewrite decide_True by done.
  cbn [app render fold_right]. rewrite progress_at_end_text by lia.
  rewrite Hk, Hbe, Hab. cbn [render_line render_engine_line String.concat].
  by rewrite ?append_assoc, append_empty_r.
Qed.

Lemma main_console_tail_witness :
  let rg := mk_range (to_u32 (atoi "1")) (to_u32 (atoi "0")) in
  exists o prefix, main ["flfasta"; "in.fa"; "out.fa"; "1"; "0"; "1"]%string ex_host = Some o /\
    render (printed o) = String.append prefix (String.concat "" [
      CR; "Filtering by length at 100.00%."; LF;
      "Total of sequences kept: "; format_u (count_records (keep rg) ex_input); "."; LF;
      "Total of sequences discarded bellow minimum: ";
        format_u (count_records (too_short rg) ex_input); "."; LF;
      "Total of sequences discarded above maximum: ";
        format_u (count_records (too_long rg) ex_input); "."; LF])%string.
Proof.
  assert (Hm : malloc_succeeds ex_host = true) by reflexivity.
  assert (Hb : files ex_host !! strncat_path "in.fa" = Some ex_input) by (vm_compute; reflexivity).
  assert (Hw : strncat_path "out.fa" ∉ unwritable ex_host)
    by (apply (bool_decide_unpack _); vm_compute; reflexivity).
  assert (Hne : strncat_path "in.fa" <> strncat_path "out.fa")
    by (apply (bool_decide_unpack _); vm_compute; reflexivity).
  assert (Hp : to_u8 (atoi "1") = 1) by (vm_compute; reflexivity).
  assert (Hn : 0 < length ex_input) by (simpl; lia).
  assert (Hlt : (Z.of_nat (length ex_input) < 2 ^ 53)%Z) by (vm_compute; reflexivity).
  exact (main_console_tail _ _ _ _ _ _ ex_host ex_input Hm Hb Hw Hne Hp Hn Hlt).
Defined.

Lemma main_help_witness :
  length ["flfasta"%string] <> 6 /\ malloc_succeeds ex_host = true /\
  main ["flfasta"%string] ex_host = Some (mk_outcome EXIT_SUCCESS print_help ex_host).
Proof.
  assert (Hl : length ["flfasta"%string] <> 6) by (simpl; lia).
  assert (Hm : malloc_succeeds ex_host = true) by reflexivity.
  split; [exact Hl|]. split; [exact Hm|]. exact (main_help _ ex_host Hl Hm).
Defined.

Lemma main_filters_witness :
  malloc_succeeds ex_host = true /\
  files ex_host !! strncat_path "in.fa" = Some ex_input /\
  (strncat_path "out.fa" ∉ unwritable ex_host) /\
  strncat_path "in.fa" <> strncat_path "out.fa" /\
  exists o, main ["flfasta"; "in.fa"; "out.fa"; "1"; "0"; "1"]%string ex_host = Some o /\
    status o = EXIT_SUCCESS /\
    files (final o) = <[strncat_path "out.fa" :=
      filter_fasta (mk_range (to_u32 (atoi "1")) (to_u32 (atoi "0"))) ex_input]> (files ex_host).
Proof.
  assert (Hm : malloc_succeeds ex_host = true) by reflexivity.
  assert (Hb : files ex_host !! strncat_path "in.fa" = Some ex_input) by (vm_compute; reflexivity).
  assert (Hw : strncat_path "out.fa" ∉ unwritable ex_host)
    by (apply (bool_decide_unpack _); vm_compute; reflexivity).
  assert (Hne : strncat_path "in.fa" <> strncat_path "out.fa")
    by (apply (bool_decide_unpack _); vm_compute; reflexivity).
  split; [exact Hm|]. split; [exact Hb|]. split; [exact Hw|]. split; [exact Hne|].
  exact (main_filters _ _ _ _ _ _ ex_host ex_input Hm Hb Hw Hne).
Defined.

Lemma main_same_path_truncates_witness :
  malloc_succeeds ex_host = true /\
  files ex_host !! strncat_path "in.fa" = Some ex_input /\
  (strncat_path "in.fa" ∉ unwritable ex_host) /\
  strncat_path "in.fa" = strncat_path "in.fa" /\
  exists o, main ["flfasta"; "in.fa"; "in.fa"; "1"; "0"; "1"]%string ex_host = Some o /\
    status o = EXIT_SUCCESS /\
    files (final o) = <[strncat_path "in.fa" := []]> (files ex_host) /\
    drop 4 (printed o) =
      (if decide (to_u8 (atoi "1") = 1) then [LNewline] else []) ++ [LKept 0; LBelow 0; LAbove 0].
Proof.
  assert (Hm : malloc_succeeds ex_host = true) by reflexivity.
  assert (Hb : files ex_host !! strncat_path "in.fa" = Some ex_input) by (vm_compute; reflexivity).
  assert (Hw : strncat_path "in.fa" ∉ unwritable ex_host)
    by (apply (bool_decide_unpack _); vm_compute; reflexivity).
  assert (Heq : strncat_path "in.fa" = strncat_path "in.fa") by reflexivity.
  split; [exact Hm|]. split; [exact Hb|]. split; [exact Hw|]. split; [exact Heq|].
  exact (main_same_path_truncates _ _ _ _ _ _ ex_host ex_input Hm Hb Hw Heq).
Defined.

(** C23. [strncat] keeps at most [PATH_LENGTH_MAX - 1 = 4095] bytes of a
    path argument: a longer path is silently cut, and [main] opens the file
    named by the cut path. *)
Theorem parse_arguments_path_truncated p a1 a2 a3 a4 a5 :
  String.length (file_input_path (parse_arguments [p; a1; a2; a3; a4; a5])) =
    Nat.min 4095 (String.length a1) /\
  String.length (file_output_path (parse_arguments [p; a1; a2; a3; a4; a5])) =
    Nat.min 4095 (String.length a2).
Proof. simpl. unfold strncat_path. by rewrite !substring_0_length. Qed.

Local Open Scope string_scope.

(** C24. A negative bound is stored modulo 2^32.  A maximum [atoi]
    reads as [-n], with [0 < n <= 2^31], becomes [2^32 - n].  That is a
    bound, not "no maximum": a record is discarded from above exactly when
    it is at least as long as the minimum and longer than [2^32 - n].  The
    progress flag is on exactly when [atoi] reads a value congruent to 1
    modulo 256, "257" included. *)
Theorem parse_arguments_negative_bounds p a1 a2 a3 a4 a5 size :
  (- 2 ^ 31 <= atoi a4 < 0)%Z ->
  let cfg := settings (parse_arguments [p; a1; a2; a3; a4; a5]) in
  Z.of_nat (sequence_length_maximum cfg) = (2 ^ 32 + atoi a4)%Z /\
  (classify cfg size = Above <->
     sequence_length_minimum cfg <= size /\ (2 ^ 32 + atoi a4 < Z.of_nat size)%Z) /\
  (show_progress cfg = 1 <-> (atoi a5 mod 256 = 1)%Z).
Proof.
  intros Hneg cfg. assert (E32 : (2 ^ 32 = 4294967296)%Z) by reflexivity.
  assert (E31 : (2 ^ 31 = 2147483648)%Z) by reflexivity.
  assert (Hm : Z.of_nat (sequence_length_maximum cfg) = (2 ^ 32 + atoi a4)%Z).
  { cbn. unfold to_u32. rewrite Z2Nat.id by (apply Z.mod_pos_bound; lia).
    rewrite <- (Z.mod_add (atoi a4) 1), Z.mod_small by lia. lia. }
  split_and!; [done| |].
  - clearbody cfg. unfold classify. case_decide; [split; [discriminate|intros [? ?]; lia]|].
    destruct (bool_decide (_ < _)) eqn:E1, (bool_decide (0 < _)) eqn:E2; simpl;
      repeat match goal with
      | E : bool_decide _ = true |- _ => apply bool_decide_eq_true in E
      | E : bool_decide _ = false |- _ => apply bool_decide_eq_false in E
      end;
      (split; [intros Hv; (discriminate || lia)|intros [? ?]; (reflexivity || (exfalso; lia))]).
  - cbn. unfold to_u8. change (2 ^ 8)%Z with 256%Z.
    pose proof (Z.mod_pos_bound (atoi a5) 256 ltac:(lia)). lia.
Qed.

Lemma parse_arguments_negative_bounds_witness :
  let cfg := settings (parse_arguments ["flfasta"; "in"; "out"; "0"; "-1"; "257"]) in
  Z.of_nat (sequence_length_maximum cfg) = (2 ^ 32 + atoi "-1")%Z /\
  (classify cfg 5 = Above <->
     sequence_length_minimum cfg <= 5 /\ (2 ^ 32 + atoi "-1" < Z.of_nat 5)%Z) /\
  (show_progress cfg = 1 <-> (atoi "257" mod 256 = 1)%Z).
Proof.
  assert (Hneg : (- 2 ^ 31 <= atoi "-1" < 0)%Z)
    by (split; [vm_compute; discriminate|vm_compute; reflexivity]).
  exact (parse_arguments_negative_bounds "flfasta" "in" "out" "0" "-1" "257" 5 Hneg).
Defined.
